(** * NannyTrack: session lifecycle, geofence, pay period and storage

    A shallow embedding of the logic of the time-tracking application:
    - [src/types.ts]: the data model;
    - [src/App.tsx]: the application with the geofenced clock-in and the
      fixed-key persistence effects (module [App]);
    - the sync-key revision of the same component (module [SyncApp]), which
      persists through [saveToCloud] under keys derived from [syncKey].

    Number model.  JavaScript numbers are IEEE doubles.  Instants are
    integral millisecond counts and are embedded as [Z]; quotients of such
    integers (minutes, hours, pay) are embedded as exact rationals [Q].
    Coordinates and radii are doubles, embedded by their real value [R].
    The distance the clock-in handler compares with the radius is
    [calculateDistance] evaluated in doubles, where it can be NaN:
    [Geofence.calculateDistance_double], stated for every platform
    arithmetic [Geofence.Doubles].  The formula itself is also given in
    exact arithmetic, [Geofence.calculateDistance], for its algebraic
    properties. *)

From Stdlib Require Import ZArith QArith Qround Qabs Reals Lqa Lra Lia List Permutation.
From stdpp Require Import gmap strings.
Import ListNotations.

Local Open Scope Z_scope.

(** ** The data model ([src/types.ts]) *)

(** [location?: { lat: number; lng: number }] *)
Module Loc.
Record t : Type := mk { lat : R; lng : R }.
End Loc.

(** [interface HomeConfig] *)
Module HomeConfig.
Record t : Type := mk { lat : R; lng : R; radiusMeters : R }.
End HomeConfig.

(** [interface TimeSession].  [startTime] and [endTime] are ISO-8601 strings
    produced by [Date.prototype.toISOString] and read back with [new Date];
    that pair is the identity on millisecond instants, so the fields hold
    the instant itself.  Optional fields are [option]s. *)
Record TimeSession : Type := mkSession {
  id : string;
  startTime : Z;
  endTime : option Z;
  durationInMinutes : option Z;
  note : option string;
  isOutOfBounds : option bool;
  location : option Loc.t
}.

(** [enum ClockStatus] *)
Inductive ClockStatus : Type := CLOCKED_OUT | CLOCKED_IN | IDLE.

(** A session is completed when both [endTime] and [durationInMinutes] are
    present, and active when both are absent. *)
Definition completed (s : TimeSession) : Prop :=
  is_Some (endTime s) ∧ is_Some (durationInMinutes s).

Definition in_progress (s : TimeSession) : Prop :=
  endTime s = None ∧ durationInMinutes s = None.

(** ** The fragment of [Date] and [Math] the component uses *)

Module JsDate.

Definition msPerDay : Z := 86400000.

(** ECMAScript [Day(t)] and [TimeWithinDay(t)]. *)
Definition Day (t : Z) : Z := t / msPerDay.
Definition TimeWithinDay (t : Z) : Z := t mod msPerDay.

(** ECMAScript [MakeDate(day, time)]. *)
Definition MakeDate (day time : Z) : Z := day * msPerDay + time.

(** Day of the month (1..31) of day number [d] counted from 1970-01-01 in
    the proleptic Gregorian calendar, computed on the 400-year cycle that
    starts on a 1st of March. *)
Definition dayOfMonth (d : Z) : Z :=
  let z := d + 719468 in
  let doe := z mod 146097 in
  let yoe := (doe - doe / 1460 + doe / 36524 - doe / 146096) / 365 in
  let doy := doe - (365 * yoe + yoe / 4 - yoe / 100) in
  let mp := (5 * doy + 2) / 153 in
  doy - (153 * mp + 2) / 5 + 1.

(** ECMAScript [DateFromTime(t)]. *)
Definition DateFromTime (t : Z) : Z := dayOfMonth (Day t).

Section LocalTime.
(** The local time zone adjustment, taken constant (no daylight-saving
    transition inside the instants handled). *)
Variable LocalTZA : Z.

Definition LocalTime (t : Z) : Z := t + LocalTZA.
Definition UTC (t : Z) : Z := t - LocalTZA.

(** [Date.prototype.getDate]. *)
Definition getDate (t : Z) : Z := DateFromTime (LocalTime t).

(** [Date.prototype.setDate(dt)]: the result is
    [UTC(MakeDate(MakeDay(YearFromTime(t), MonthFromTime(t), dt),
    TimeWithinDay(t)))] for the local time [t], and
    [MakeDay(YearFromTime(t), MonthFromTime(t), dt)] is the day number
    of the first day of [t]'s month plus [dt - 1]; a [dt] outside the
    month rolls over into the neighbouring months. *)
Definition setDate (t dt : Z) : Z :=
  let lt := LocalTime t in
  let firstOfMonth := Day lt - (DateFromTime lt - 1) in
  UTC (MakeDate (firstOfMonth + dt - 1) (TimeWithinDay lt)).
End LocalTime.

(** [Math.round]: the nearest integer, ties towards +infinity. *)
Definition Math_round (x : Q) : Z := Qfloor (x + (1 # 2))%Q.

End JsDate.

(** ** Period filter and aggregator (identical in both revisions) *)

Module Payroll.
Import JsDate.

Definition cycleDays : Z := 14.

Section Window.
Variable LocalTZA : Z.
(** The value of [new Date()] during the evaluation; the three calls in
    the source are taken at the same instant. *)
Variable now : Z.
Variable periodOffset : Z.

(** [startOfPeriod.setDate(now.getDate() - (cycleDays * (periodOffset + 1)))] *)
Definition startOfPeriod : Z :=
  setDate LocalTZA now (getDate LocalTZA now - cycleDays * (periodOffset + 1)).

(** [endOfPeriod.setDate(startOfPeriod.getDate() + cycleDays)], on a
    fresh [new Date()]. *)
Definition endOfPeriod : Z :=
  setDate LocalTZA now (getDate LocalTZA startOfPeriod + cycleDays).

(** [sessions.filter(s => sDate >= startOfPeriod && sDate <= endOfPeriod)] *)
Definition filteredSessions (sessions : list TimeSession) : list TimeSession :=
  List.filter
    (fun s => (startOfPeriod <=? startTime s) && (startTime s <=? endOfPeriod))
    sessions.
End Window.

(** A number printed by [toFixed(2)] is represented by its count of
    hundredths: ["3.00"] is [300].  [toFixed] rounds the magnitude to the
    nearest hundredth, the larger candidate on a tie, and keeps the sign. *)
Definition toFixed2 (x : Q) : Z :=
  if Qlt_le_dec x 0 then - Qfloor (- x * 100 + (1 # 2))%Q
  else Qfloor (x * 100 + (1 # 2))%Q.

(** [parseFloat] of a string printed by [toFixed(2)]. *)
Definition parseFloat (n : Z) : Q := (n # 100)%Q.

(** [s.durationInMinutes || 0] *)
Definition durationOrZero (s : TimeSession) : Z :=
  match durationInMinutes s with
  | Some d => d
  | None => 0
  end.

(** [(filteredSessions.reduce((acc, s) => acc + (s.durationInMinutes || 0), 0) / 60).toFixed(2)] *)
Definition totalHours (filtered : list TimeSession) : Z :=
  let minutes := fold_left (fun acc s => acc + durationOrZero s) filtered 0 in
  toFixed2 (inject_Z minutes / 60)%Q.

(** [(parseFloat(totalHours) * hourlyRate).toFixed(2)] *)
Definition totalPay (totalHours : Z) (hourlyRate : Q) : Z :=
  toFixed2 (parseFloat totalHours * hourlyRate)%Q.

(** The text of a [toFixed(2)] result. *)
Definition digit (n : Z) : string :=
  String (Ascii.ascii_of_nat (48 + Z.to_nat n)) EmptyString.

Fixpoint digits (fuel : nat) (n : Z) : string :=
  match fuel with
  | O => digit (n mod 10)
  | S fuel' =>
      if n <? 10 then digit n
      else (digits fuel' (n / 10) +:+ digit (n mod 10))%string
  end.

Definition show_fixed2 (n : Z) : string :=
  let m := Z.abs n in
  let sign : string := if n <? 0 then "-"%string else ""%string in
  let whole := digits (Z.to_nat (Z.log2 (m / 100 + 1))) (m / 100) in
  let cents := digit (m / 10 mod 10) +:+ digit (m mod 10) in
  sign +:+ whole +:+ "." +:+ cents.

End Payroll.

(** ** Geofence evaluator ([calculateDistance] in [src/App.tsx]) *)

Module Geofence.
Local Open Scope R_scope.

(** [Math.atan2(y, x)] on real arguments. *)
Definition atan2 (y x : R) : R :=
  if Rlt_dec 0 x then atan (y / x)
  else if Rlt_dec x 0 then
    (if Rle_dec 0 y then atan (y / x) + PI else atan (y / x) - PI)
  else if Rlt_dec 0 y then PI / 2
  else if Rlt_dec y 0 then - (PI / 2)
  else 0.

(** The formula of [calculateDistance], in exact arithmetic. *)
Definition calculateDistance (lat1 lon1 lat2 lon2 : R) : R :=
  let R := 6371000 in
  let φ1 := lat1 * PI / 180 in
  let φ2 := lat2 * PI / 180 in
  let Δφ := (lat2 - lat1) * PI / 180 in
  let Δλ := (lon2 - lon1) * PI / 180 in
  let a := sin (Δφ / 2) * sin (Δφ / 2)
           + cos φ1 * cos φ2 * sin (Δλ / 2) * sin (Δλ / 2) in
  R * (2 * atan2 (sqrt a) (sqrt (1 - a))).

(** [Math.round] on a real argument. *)
Definition Math_round (x : R) : Z := Zfloor (x + / 2).

(** *** The evaluation in double precision

    The program evaluates [calculateDistance] in IEEE 754 doubles.  A value
    met there is a finite double, given by its value, or NaN.  (An
    operation that overflows gives an infinity; in [calculateDistance] that
    can only happen to an argument of [Math.sin] or [Math.cos], which turn
    it into NaN, so [NaN] stands for it too.) *)
Inductive number : Type :=
| NaN
| Num (x : R).

(** The arithmetic of the platform, with what the proofs use of it:
    - [rnd x] is the result of an operation ([+], [-], [*], [/],
      [Math.sqrt]) whose exact value is [x]: the double nearest to [x]; 0
      and 1 are doubles;
    - [Math_PI] is the double [Math.PI];
    - [Math_sin], [Math_cos] and [Math_atan2] are the platform's
      approximations, on finite arguments; ECMAScript fixes
      [Math.sin(0) = 0] and [Math.atan2(0, 1) = 0]. *)
Record Doubles : Type := mkDoubles {
  rnd : R → number;
  Math_PI : R;
  Math_sin : R → R;
  Math_cos : R → R;
  Math_atan2 : R → R → R;
  rnd_0 : rnd 0 = Num 0;
  rnd_1 : rnd 1 = Num 1;
  Math_sin_0 : Math_sin 0 = 0;
  Math_atan2_0_1 : Math_atan2 0 1 = 0
}.

(** An arithmetic operation: NaN when an operand is NaN. *)
Definition arith (D : Doubles) (op : R → R → R) (x y : number) : number :=
  match x, y with
  | Num a, Num b => rnd D (op a b)
  | _, _ => NaN
  end.

Definition fadd (D : Doubles) : number → number → number := arith D Rplus.
Definition fsub (D : Doubles) : number → number → number := arith D Rminus.
Definition fmul (D : Doubles) : number → number → number := arith D Rmult.
Definition fdiv (D : Doubles) : number → number → number := arith D Rdiv.

(** [Math.sqrt]: NaN below zero. *)
Definition fsqrt (D : Doubles) (x : number) : number :=
  match x with
  | Num a => if Rlt_dec a 0 then NaN else rnd D (sqrt a)
  | NaN => NaN
  end.

Definition fsin (D : Doubles) (x : number) : number :=
  match x with
  | Num a => Num (Math_sin D a)
  | NaN => NaN
  end.

Definition fcos (D : Doubles) (x : number) : number :=
  match x with
  | Num a => Num (Math_cos D a)
  | NaN => NaN
  end.

Definition fatan2 (D : Doubles) (y x : number) : number :=
  match y, x with
  | Num a, Num b => Num (Math_atan2 D a b)
  | _, _ => NaN
  end.

(** [calculateDistance] as the program evaluates it. *)
Definition calculateDistance_double (D : Doubles) (lat1 lon1 lat2 lon2 : R) : number :=
  let R := Num 6371000 in
  let φ1 := fdiv D (fmul D (Num lat1) (Num (Math_PI D))) (Num 180) in
  let φ2 := fdiv D (fmul D (Num lat2) (Num (Math_PI D))) (Num 180) in
  let Δφ := fdiv D (fmul D (fsub D (Num lat2) (Num lat1)) (Num (Math_PI D))) (Num 180) in
  let Δλ := fdiv D (fmul D (fsub D (Num lon2) (Num lon1)) (Num (Math_PI D))) (Num 180) in
  let a := fadd D
             (fmul D (fsin D (fdiv D Δφ (Num 2))) (fsin D (fdiv D Δφ (Num 2))))
             (fmul D
                (fmul D (fmul D (fcos D φ1) (fcos D φ2)) (fsin D (fdiv D Δλ (Num 2))))
                (fsin D (fdiv D Δλ (Num 2)))) in
  fmul D R (fmul D (Num 2) (fatan2 D (fsqrt D a) (fsqrt D (fsub D (Num 1) a)))).

(** Exact arithmetic: no rounding, the real functions. *)
Definition Exact : Doubles :=
  {| rnd := Num; Math_PI := PI; Math_sin := sin; Math_cos := cos; Math_atan2 := atan2;
     rnd_0 := eq_refl; rnd_1 := eq_refl; Math_sin_0 := sin_0;
     Math_atan2_0_1 :=
       ltac:(unfold atan2; destruct (Rlt_dec 0 1) as [_|H];
             [replace (0 / 1) with 0 by field; apply atan_0 | lra]) |}.

(** The three ways the geofence block of [handleClockIn] can go; [Outside]
    carries the distance, a number then. *)
Inductive verdict : Type :=
| Skipped
| Inside (dist : number)
| Outside (dist : R).

(** [if (homeConfig.lat !== 0) { const dist = calculateDistance(userLoc.lat,
    userLoc.lng, homeConfig.lat, homeConfig.lng);
    if (dist > homeConfig.radiusMeters) ... }]; the comparison is false
    when [dist] is NaN. *)
Definition check (D : Doubles) (homeConfig : HomeConfig.t) (userLoc : Loc.t) : verdict :=
  if Req_dec_T (HomeConfig.lat homeConfig) 0 then Skipped
  else
    let dist := calculateDistance_double D (Loc.lat userLoc) (Loc.lng userLoc)
                  (HomeConfig.lat homeConfig) (HomeConfig.lng homeConfig) in
    match dist with
    | Num d =>
        if Rgt_dec d (HomeConfig.radiusMeters homeConfig) then Outside d
        else Inside dist
    | NaN => Inside dist
    end.


End Geofence.

(** ** The browser's [localStorage] *)

(** A stored item is the JSON text of a value; [JSON.parse] after
    [JSON.stringify] gives the value back, so an item is represented by the
    value it encodes. *)
Inductive Item : Type :=
| ItemSessions (l : list TimeSession)
| ItemSession (s : TimeSession)
| ItemHome (h : HomeConfig.t)
| ItemText (s : string).

Abbreviation Storage := (gmap string Item).

(** What [setError] receives. *)
Inductive ErrorMessage : Type :=
| LocationMismatch (meters : Z)
    (* `Location mismatch: You are ${Math.round(dist)}m away from home.` *)
| LocationServicesDisabled
    (* "Please enable location services to clock in." *)
| LocationRequired.
    (* "Location is required to clock in." *)

(** [const durationMins = Math.round((now.getTime() -
      new Date(activeSession.startTime).getTime()) / 60000)] *)
Definition durationMins (now start : Z) : Z :=
  JsDate.Math_round (inject_Z (now - start) / 60000)%Q.

(** [{ id: crypto.randomUUID(), startTime: now.toISOString(),
       location: userLoc, isOutOfBounds: false }] *)
Definition newSession (uuid : string) (now : Z) (userLoc : Loc.t) : TimeSession :=
  {| id := uuid; startTime := now; endTime := None; durationInMinutes := None;
     note := None; isOutOfBounds := Some false; location := Some userLoc |}.

(** [{ ...activeSession, endTime: now.toISOString(), durationInMinutes: durationMins }] *)
Definition complete (activeSession : TimeSession) (now : Z) : TimeSession :=
  {| id := id activeSession; startTime := startTime activeSession;
     endTime := Some now;
     durationInMinutes := Some (durationMins now (startTime activeSession));
     note := note activeSession; isOutOfBounds := isOutOfBounds activeSession;
     location := location activeSession |}.

(** ** The component of [src/App.tsx] *)

Module App.

(** The [useState] cells the clock controller reads and writes. *)
Record State : Type := mkState {
  sessions : list TimeSession;
  activeSession : option TimeSession;
  status : ClockStatus;
  error : option ErrorMessage;
  homeConfig : HomeConfig.t
}.

(** The component together with the storage it persists to. *)
Record World : Type := mkWorld { state : State; storage : Storage }.

(** [useState<HomeConfig>(() => { const saved = localStorage.getItem('home_config');
    return saved ? JSON.parse(saved) : { lat: 0, lng: 0, radiusMeters: 200 } })] *)
Definition initialHomeConfig (ls : Storage) : HomeConfig.t :=
  match ls !! "home_config" with
  | Some (ItemHome h) => h
  | _ => HomeConfig.mk 0 0 200
  end.

(** The state of the first render. *)
Definition initialState (ls : Storage) : State :=
  {| sessions := []; activeSession := None; status := CLOCKED_OUT;
     error := None; homeConfig := initialHomeConfig ls |}.

(** The mount effect:
    [if (saved) setSessions(JSON.parse(saved));
     if (active) { setActiveSession(JSON.parse(active)); setStatus(ClockStatus.CLOCKED_IN); }] *)
Definition loadEffect (ls : Storage) (st : State) : State :=
  let st1 :=
    match ls !! "nanny_sessions" with
    | Some (ItemSessions l) =>
        mkState l (activeSession st) (status st) (error st) (homeConfig st)
    | _ => st
    end in
  match ls !! "nanny_active_session" with
  | Some (ItemSession a) =>
      mkState (sessions st1) (Some a) CLOCKED_IN (error st1) (homeConfig st1)
  | _ => st1
  end.

(** The effect on [[sessions, homeConfig]]. *)
Definition persistSessions (st : State) (ls : Storage) : Storage :=
  <["home_config" := ItemHome (homeConfig st)]>
    (<["nanny_sessions" := ItemSessions (sessions st)]> ls).

(** The effect on [[activeSession]]. *)
Definition persistActive (st : State) (ls : Storage) : Storage :=
  match activeSession st with
  | Some a => <["nanny_active_session" := ItemSession a]> ls
  | None => delete "nanny_active_session" ls
  end.

(** [handleClockIn].  [pos] is the outcome of [getCurrentPosition]
    ([None] when the promise rejects) and [uuid] the value of
    [crypto.randomUUID()]. *)
Definition handleClockIn (D : Geofence.Doubles) (st : State) (now : Z)
    (pos : option Loc.t) (uuid : string) : State :=
  match pos with
  | None =>
      mkState (sessions st) (activeSession st) (status st)
        (Some LocationServicesDisabled) (homeConfig st)
  | Some userLoc =>
      match Geofence.check D (homeConfig st) userLoc with
      | Geofence.Outside dist =>
          mkState (sessions st) (activeSession st) (status st)
            (Some (LocationMismatch (Geofence.Math_round dist))) (homeConfig st)
      | _ =>
          mkState (sessions st) (Some (newSession uuid now userLoc)) CLOCKED_IN
            None (homeConfig st)
      end
  end.

(** [handleClockOut]; [None] is the early [return] that calls no setter. *)
Definition handleClockOut (st : State) (now : Z) : option State :=
  match activeSession st with
  | None => None
  | Some a =>
      Some (mkState (complete a now :: sessions st) None CLOCKED_OUT
              (error st) (homeConfig st))
  end.

(** Mounting the component on a storage: the first render runs the three
    effects in order on the initial state, the second render re-runs the
    persisting effects on the loaded state. *)
Definition mount (ls : Storage) : World :=
  let st0 := initialState ls in
  let st := loadEffect ls st0 in
  let ls0 := persistActive st0 (persistSessions st0 ls) in
  mkWorld st (persistActive st (persistSessions st ls0)).

(** A click on CLOCK IN: the handler, then the effect on [[activeSession]]
    when the handler set it. *)
Definition clockIn (D : Geofence.Doubles) (w : World) (now : Z) (pos : option Loc.t)
    (uuid : string) : World :=
  let st := handleClockIn D (state w) now pos uuid in
  match error st with
  | Some _ => mkWorld st (storage w)
  | None => mkWorld st (persistActive st (storage w))
  end.

(** A click on CLOCK OUT: the handler, then both persisting effects. *)
Definition clockOut (w : World) (now : Z) : World :=
  match handleClockOut (state w) now with
  | None => w
  | Some st => mkWorld st (persistActive st (persistSessions st (storage w)))
  end.

(** The worlds the component can be in: mounted on the storage [ls0] it
    finds, then any sequence of clock-ins, clock-outs and page reloads. *)
Inductive reachable (D : Geofence.Doubles) (ls0 : Storage) : World → Prop :=
| reach_mount : reachable D ls0 (mount ls0)
| reach_clockIn w now pos uuid :
    reachable D ls0 w → reachable D ls0 (clockIn D w now pos uuid)
| reach_clockOut w now :
    reachable D ls0 w → reachable D ls0 (clockOut w now)
| reach_reload w :
    reachable D ls0 w → reachable D ls0 (mount (storage w)).

(** The list stored under ["nanny_sessions"]. *)
Definition storedSessions (ls : Storage) : list TimeSession :=
  match ls !! "nanny_sessions" with
  | Some (ItemSessions l) => l
  | _ => []
  end.

End App.

(** ** The sync-key revision of the component *)

Module SyncApp.

Record State : Type := mkState {
  sessions : list TimeSession;
  activeSession : option TimeSession;
  status : ClockStatus;
  error : option ErrorMessage;
  syncKey : string
}.

Record World : Type := mkWorld { state : State; storage : Storage }.

(** [`nanny_sessions_${syncKey}`] and [`nanny_active_${syncKey}`] *)
Definition sessionsKey (syncKey : string) : string := "nanny_sessions_" +:+ syncKey.
Definition activeKey (syncKey : string) : string := "nanny_active_" +:+ syncKey.

(** [useState(() => localStorage.getItem('nanny_sync_key') || 'our-nanny-2024')] *)
Definition initialSyncKey (ls : Storage) : string :=
  match ls !! "nanny_sync_key" with
  | Some (ItemText k) => if String.eqb k "" then "our-nanny-2024" else k
  | _ => "our-nanny-2024"
  end.

Definition initialState (syncKey : string) : State :=
  {| sessions := []; activeSession := None; status := CLOCKED_OUT;
     error := None; syncKey := syncKey |}.

(** [saveToCloud(data, active)], with the [syncKey] of the render that
    created the handler. *)
Definition saveToCloud (syncKey : string) (data : list TimeSession)
    (active : option TimeSession) (ls : Storage) : Storage :=
  let ls1 := <[sessionsKey syncKey := ItemSessions data]> ls in
  match active with
  | Some a => <[activeKey syncKey := ItemSession a]> ls1
  | None => delete (activeKey syncKey) ls1
  end.

(** The effect on [[syncKey]]:
    [if (saved) setSessions(JSON.parse(saved));
     if (active) { setActiveSession(JSON.parse(active)); setStatus(ClockStatus.CLOCKED_IN); }] *)
Definition loadEffect (ls : Storage) (st : State) : State :=
  let st1 :=
    match ls !! sessionsKey (syncKey st) with
    | Some (ItemSessions l) =>
        mkState l (activeSession st) (status st) (error st) (syncKey st)
    | _ => st
    end in
  match ls !! activeKey (syncKey st) with
  | Some (ItemSession a) =>
      mkState (sessions st1) (Some a) CLOCKED_IN (error st1) (syncKey st1)
  | _ => st1
  end.

(** [handleClockIn]: no geofence block in this revision; the handler ends
    with [await saveToCloud([newSess, ...sessions], newSess)]. *)
Definition handleClockIn (w : World) (now : Z) (pos : option Loc.t)
    (uuid : string) : World :=
  let st := state w in
  match pos with
  | None =>
      mkWorld
        (mkState (sessions st) (activeSession st) (status st)
           (Some LocationRequired) (syncKey st))
        (storage w)
  | Some userLoc =>
      let newSess := newSession uuid now userLoc in
      mkWorld
        (mkState (sessions st) (Some newSess) CLOCKED_IN None (syncKey st))
        (saveToCloud (syncKey st) (newSess :: sessions st) (Some newSess) (storage w))
  end.

(** [handleClockOut], ending with [await saveToCloud(updated, null)]. *)
Definition handleClockOut (w : World) (now : Z) : World :=
  let st := state w in
  match activeSession st with
  | None => w
  | Some a =>
      let updated := complete a now :: sessions st in
      mkWorld
        (mkState updated None CLOCKED_OUT (error st) (syncKey st))
        (saveToCloud (syncKey st) updated None (storage w))
  end.

(** Mounting: the initial render, then the effect on [[syncKey]]. *)
Definition mount (ls : Storage) : World :=
  mkWorld (loadEffect ls (initialState (initialSyncKey ls))) ls.

(** The Change Key button:
    [if (newKey) { setSyncKey(newKey); localStorage.setItem('nanny_sync_key', newKey); }];
    the effect on [[syncKey]] runs when the key differs from the current
    one.  [None] is a cancelled prompt. *)
Definition changeKey (w : World) (newKey : option string) : World :=
  match newKey with
  | None => w
  | Some k =>
      if String.eqb k "" then w
      else
        let st := state w in
        let ls := <["nanny_sync_key" := ItemText k]> (storage w) in
        if String.eqb k (syncKey st) then mkWorld st ls
        else
          mkWorld
            (loadEffect ls
               (mkState (sessions st) (activeSession st) (status st) (error st) k))
            ls
  end.

(** The worlds the component can be in, from the storage [ls0] it finds. *)
Inductive reachable (ls0 : Storage) : World → Prop :=
| reach_mount : reachable ls0 (mount ls0)
| reach_clockIn w now pos uuid :
    reachable ls0 w → reachable ls0 (handleClockIn w now pos uuid)
| reach_clockOut w now :
    reachable ls0 w → reachable ls0 (handleClockOut w now)
| reach_changeKey w newKey :
    reachable ls0 w → reachable ls0 (changeKey w newKey)
| reach_reload w :
    reachable ls0 w → reachable ls0 (mount (storage w)).

(** The list stored for a sync key. *)
Definition storedSessions (syncKey : string) (ls : Storage) : list TimeSession :=
  match ls !! sessionsKey syncKey with
  | Some (ItemSessions l) => l
  | _ => []
  end.

End SyncApp.

(** ** Chart data and CSV export ([chartData] and [exportToCSV]) *)

Module Report.

Section Locale.
(** The renderings of an instant by
    [toLocaleDateString([], { weekday: 'short' })], [toLocaleDateString()]
    and [toLocaleTimeString()]; they depend on the browser's locale and time
    zone. *)
Variable weekdayShort : Z → string.
Variable toLocaleDateString : Z → string.
Variable toLocaleTimeString : Z → string.

(** [days[day] = (days[day] || 0) + hours] on an object whose entries are
    kept in insertion order, as [Object.entries] lists them. *)
Fixpoint addHours (day : string) (hours : Q) (days : list (string * Q)) :
    list (string * Q) :=
  match days with
  | [] => [(day, (0 + hours)%Q)]
  | (name, h) :: rest =>
      if String.eqb name day then (name, (h + hours)%Q) :: rest
      else (name, h) :: addHours day hours rest
  end.

(** [(s.durationInMinutes || 0) / 60] *)
Definition hoursOf (s : TimeSession) : Q :=
  (inject_Z (Payroll.durationOrZero s) / 60)%Q.

(** The callback of [filteredSessions.forEach] in [chartData]. *)
Definition addSession (days : list (string * Q)) (s : TimeSession) : list (string * Q) :=
  addHours (weekdayShort (startTime s)) (hoursOf s) days.

(** [chartData]: the entries [{ name, hours }] in the order of
    [Object.entries(days)]. *)
Definition chartData (filteredSessions : list TimeSession) : list (string * Q) :=
  fold_left addSession filteredSessions [].

(** [Array.prototype.join]. *)
Fixpoint join (sep : string) (l : list string) : string :=
  match l with
  | [] => ""
  | [x] => x
  | x :: rest => x +:+ sep +:+ join sep rest
  end.

Definition headers : list string :=
  ["Date"; "Start Time"; "End Time"; "Duration (Hours)"; "Status"]%string.

(** One element of [rows] in [exportToCSV]. *)
Definition exportRow (s : TimeSession) : list string :=
  [ toLocaleDateString (startTime s);
    toLocaleTimeString (startTime s);
    match endTime s with
    | Some e => toLocaleTimeString e
    | None => "In Progress"%string
    end;
    Payroll.show_fixed2
      (Payroll.toFixed2 (inject_Z (Payroll.durationOrZero s) / 60)%Q);
    match isOutOfBounds s with
    | Some true => "Flagged"%string
    | _ => "Verified"%string
    end ].

(** [csvContent] in [exportToCSV], before [encodeURI]. *)
Definition csvContent (filteredSessions : list TimeSession) : string :=
  "data:text/csv;charset=utf-8,"
  +:+ join (String (Ascii.ascii_of_nat 10) "")
        (join "," headers :: map (λ r, join "," r) (map exportRow filteredSessions)).

(** The hours of the sessions of [l] whose weekday is [name]. *)
Definition hoursOn (name : string) (l : list TimeSession) : Q :=
  fold_right
    (λ s acc,
       if String.eqb (weekdayShort (startTime s)) name
       then (inject_Z (Payroll.durationOrZero s) / 60 + acc)%Q
       else acc)
    0%Q l.
End Locale.

(** The sum of the [hours] of chart entries. *)
Definition totalOf (days : list (string * Q)) : Q :=
  fold_right (λ e acc, (snd e + acc)%Q) 0%Q days.

End Report.

(** ** The statements of the specification *)

Module Spec.


(** "The geofence check is skipped if and only if the configured home
    coordinate is exactly (0,0)", on the platform [D]. *)
Definition skipped_iff_origin (D : Geofence.Doubles) : Prop :=
  ∀ (home : HomeConfig.t) (userLoc : Loc.t),
    Geofence.check D home userLoc = Geofence.Skipped
    ↔ (HomeConfig.lat home = 0%R ∧ HomeConfig.lng home = 0%R).

(** The 14-day window [[now - 14 x (offset+1) days, window_start + 14 days]]. *)
Definition windowStart (now periodOffset : Z) : Z :=
  now - 14 * (periodOffset + 1) * JsDate.msPerDay.

Definition windowEnd (now periodOffset : Z) : Z :=
  windowStart now periodOffset + 14 * JsDate.msPerDay.

Definition inWindow (now periodOffset : Z) (s : TimeSession) : bool :=
  (windowStart now periodOffset <=? startTime s)
  && (startTime s <=? windowEnd now periodOffset).

(** "The period filter returns exactly those sessions whose startTime lies
    in the window, both bounds inclusive". *)
Definition filter_is_window : Prop :=
  ∀ (LocalTZA now periodOffset : Z) (sessions : list TimeSession),
    0 ≤ periodOffset →
    Payroll.filteredSessions LocalTZA now periodOffset sessions
    = List.filter (inWindow now periodOffset) sessions.

(** [n] is [x] rounded to the nearest integer. *)
Definition nearest_integer (n : Z) (x : Q) : Prop :=
  (x - (1 # 2) <= inject_Z n)%Q ∧ (inject_Z n <= x + (1 # 2))%Q.

(** "For every clock-in followed by a clock-out, exactly one completed
    session is produced, with durationInMinutes equal to
    round((endTime - startTime) / 60000), and durationInMinutes is always
    >= 0", read on [src/App.tsx] on the platform [D]. *)
Definition duration_never_negative (D : Geofence.Doubles) : Prop :=
  ∀ (w : App.World) (now1 now2 : Z) (userLoc : Loc.t) (uuid : string),
    let w1 := App.clockIn D w now1 (Some userLoc) uuid in
    App.error (App.state w1) = None →
    ∃ c d,
      App.sessions (App.state (App.clockOut w1 now2)) = c :: App.sessions (App.state w)
      ∧ durationInMinutes c = Some d
      ∧ nearest_integer d (inject_Z (now2 - now1) / 60000)
      ∧ 0 ≤ d.

(** [n] hundredths is [x] rounded to 2 decimal places. *)
Definition nearest_hundredth (n : Z) (x : Q) : Prop :=
  (x - (1 # 200) <= n # 100)%Q ∧ (n # 100 <= x + (1 # 200))%Q.

(** The sum of [durationInMinutes] over a list, a missing one counted as 0. *)
Definition sumMinutes (l : list TimeSession) : Z :=
  fold_right Z.add 0 (map (λ s, default 0 (durationInMinutes s)) l).

(** "The stored session list contains only completed sessions", read on
    the sync-key revision started on an empty storage. *)
Definition sync_store_completed : Prop :=
  ∀ w : SyncApp.World,
    SyncApp.reachable ∅ w →
    Forall completed
      (SyncApp.storedSessions (SyncApp.syncKey (SyncApp.state w)) (SyncApp.storage w)).

(** "The status is CLOCKED_IN exactly when the active-session slot is
    non-empty and CLOCKED_OUT exactly when it is empty", and never IDLE. *)
Definition status_matches (status : ClockStatus) (activeSession : option TimeSession) : Prop :=
  (status = CLOCKED_IN ↔ activeSession ≠ None)
  ∧ (status = CLOCKED_OUT ↔ activeSession = None)
  ∧ status ≠ IDLE.

(** "The active session is held only in the active-session slot and is
    added to the session list, in memory and in the store, only upon
    completion", read on [src/App.tsx]. *)
Definition only_completed_listed (w : App.World) : Prop :=
  Forall completed (App.sessions (App.state w))
  ∧ (∀ a, App.activeSession (App.state w) = Some a → in_progress a)
  ∧ App.storage w !! "nanny_sessions" = Some (ItemSessions (App.sessions (App.state w)))
  ∧ App.storage w !! "nanny_active_session" = ItemSession <$> App.activeSession (App.state w)
  ∧ App.storage w !! "home_config" = Some (ItemHome (App.homeConfig (App.state w))).

End Spec.

(** A session with the given duration, every other field as in [s]. *)
Definition withDuration (s : TimeSession) (d : Z) : TimeSession :=
  {| id := id s; startTime := startTime s; endTime := endTime s;
     durationInMinutes := Some d; note := note s;
     isOutOfBounds := isOutOfBounds s; location := location s |}.

(** A session as the clock controller of [src/App.tsx] leaves it in the
    list: located, not flagged, ended, with the duration computed from its
    two instants. *)
Definition well_recorded (s : TimeSession) : Prop :=
  is_Some (location s)
  ∧ isOutOfBounds s = Some false
  ∧ ∃ e, endTime s = Some e
         ∧ durationInMinutes s = Some (durationMins e (startTime s)).

(** One user action on the component of [src/App.tsx]. *)
Inductive AppAction : Type :=
| ClockIn (now : Z) (pos : option Loc.t) (uuid : string)
| ClockOut (now : Z)
| Reload.

Definition appStep (D : Geofence.Doubles) (w : App.World) (a : AppAction) : App.World :=
  match a with
  | ClockIn now pos uuid => App.clockIn D w now pos uuid
  | ClockOut now => App.clockOut w now
  | Reload => App.mount (App.storage w)
  end.

(** * Properties *)

Example dayOfMonth_epoch : JsDate.dayOfMonth 0 = 1.
Proof. reflexivity. Qed.

Example getDate_2024_03_20 : JsDate.getDate 0 1710936000000 = 20.
Proof. reflexivity. Qed.

Example getDate_2024_02_29 : JsDate.getDate 0 (1710936000000 - 20 * 86400000) = 29.
Proof. reflexivity. Qed.

Example setDate_roll_back :
  JsDate.setDate 0 1710936000000 (20 - 28) = 1708516800000.
Proof. reflexivity. Qed.

Example show_75 : Payroll.show_fixed2 7500 = "75.00"%string.
Proof. reflexivity. Qed.

(** From 1970-01-01 on, for 25000 days (until 2038), the day of the month
    either grows by one or falls back to 1 from 28, 29, 30 or 31. *)
Example dayOfMonth_steps :
  Pos.iter
    (λ '(d, ok),
       let today := JsDate.dayOfMonth d in
       let tomorrow := JsDate.dayOfMonth (d + 1) in
       (d + 1,
        ok && ((tomorrow =? today + 1) && (tomorrow <=? 31)
               || (tomorrow =? 1) && (28 <=? today) && (today <=? 31))))
    (0, true) 25000
  = (25000, true).
Proof. vm_compute. reflexivity. Qed.

(** [Math.round] sends halves upwards, also below zero. *)
Example Math_round_halves :
  JsDate.Math_round (5 # 2) = 3 ∧ JsDate.Math_round (- (5 # 2)) = -2
  ∧ JsDate.Math_round (- (1 # 2)) = 0.
Proof. repeat split; reflexivity. Qed.

(** [toFixed(2)] sends a half of a hundredth away from zero. *)
Example toFixed2_halves :
  Payroll.toFixed2 (1005 # 1000) = 101 ∧ Payroll.toFixed2 (- (1005 # 1000)) = -101
  ∧ Payroll.show_fixed2 (-101) = "-1.01"%string.
Proof. repeat split; vm_compute; reflexivity. Qed.

(** ** Rounding *)

Lemma durationMins_div (now start : Z) :
  durationMins now start = (now - start + 30000) / 60000.
Proof.
  unfold durationMins, JsDate.Math_round.
  set (m := now - start).
  unfold Qfloor, Qdiv, Qmult, Qplus, Qinv, inject_Z. simpl.
  change (Z.pos (1 * 60000 * 2)) with (60000 * 2).
  change (1 * Z.pos (1 * 60000)) with (30000 * 2).
  replace (m * 1 * 2 + 30000 * 2) with ((m + 30000) * 2) by lia.
  apply Z.div_mul_cancel_r; lia.
Qed.

Lemma durationMins_nearest (now start : Z) :
  Spec.nearest_integer (durationMins now start) (inject_Z (now - start) / 60000).
Proof.
  rewrite durationMins_div. set (m := now - start).
  pose proof (Z.div_mod (m + 30000) 60000 ltac:(lia)) as Hdm.
  pose proof (Z.mod_pos_bound (m + 30000) 60000 ltac:(lia)) as Hb.
  set (d := (m + 30000) / 60000) in *.
  unfold Spec.nearest_integer, Qle, Qdiv, Qmult, Qminus, Qplus, Qopp, Qinv, inject_Z.
  simpl. split; lia.
Qed.

Lemma durationMins_nonneg (now start : Z) :
  start ≤ now → 0 ≤ durationMins now start.
Proof.
  intros H. rewrite durationMins_div. apply Z.div_pos; lia.
Qed.

Lemma toFixed2_nearest (x : Q) : Spec.nearest_hundredth (Payroll.toFixed2 x) x.
Proof.
  unfold Spec.nearest_hundredth, Payroll.toFixed2.
  destruct (Qlt_le_dec x 0) as [Hneg|Hpos].
  - pose proof (Qfloor_le (- x * 100 + (1 # 2))) as Hl.
    pose proof (Qlt_floor (- x * 100 + (1 # 2))) as Hu.
    set (n := Qfloor (- x * 100 + (1 # 2))) in *.
    rewrite inject_Z_plus in Hu.
    assert (He : (- n # 100) == - (inject_Z n * (1 # 100))) by (rewrite Qmake_Qdiv, inject_Z_opp; field).
    rewrite He. change (inject_Z 1) with 1%Q in Hu. clearbody n.
    generalize dependent (inject_Z n). intros q Hl Hu _. split; Lqa.lra.
  - pose proof (Qfloor_le (x * 100 + (1 # 2))) as Hl.
    pose proof (Qlt_floor (x * 100 + (1 # 2))) as Hu.
    set (n := Qfloor (x * 100 + (1 # 2))) in *.
    rewrite inject_Z_plus in Hu.
    assert (He : (n # 100) == inject_Z n * (1 # 100)) by (rewrite Qmake_Qdiv; field).
    rewrite He. change (inject_Z 1) with 1%Q in Hu. clearbody n.
    generalize dependent (inject_Z n). intros q Hl Hu _. split; Lqa.lra.
Qed.

Lemma fold_minutes (l : list TimeSession) (acc : Z) :
  fold_left (λ acc s, acc + Payroll.durationOrZero s) l acc = acc + Spec.sumMinutes l.
Proof.
  revert acc. induction l as [|s l IH]; intros acc; simpl.
  - unfold Spec.sumMinutes. simpl. lia.
  - rewrite IH. unfold Spec.sumMinutes. simpl.
    unfold Payroll.durationOrZero. destruct (durationInMinutes s); simpl; lia.
Qed.

(** ** Geofence evaluator *)

Section GeofenceFacts.
Import Geofence.
Local Open Scope R_scope.

Lemma atan2_0_1 : atan2 0 1 = 0.
Proof.
  unfold atan2. destruct (Rlt_dec 0 1) as [_|H]; [|lra].
  replace (0 / 1) with 0 by field. apply atan_0.
Qed.


Lemma haversine_swap lat1 lon1 lat2 lon2 :
  calculateDistance lat1 lon1 lat2 lon2 = calculateDistance lat2 lon2 lat1 lon1.
Proof.
  unfold calculateDistance.
  replace ((lat1 - lat2) * PI / 180 / 2) with (- ((lat2 - lat1) * PI / 180 / 2)) by field.
  replace ((lon1 - lon2) * PI / 180 / 2) with (- ((lon2 - lon1) * PI / 180 / 2)) by field.
  rewrite !sin_neg.
  set (s := sin ((lat2 - lat1) * PI / 180 / 2)).
  set (u := sin ((lon2 - lon1) * PI / 180 / 2)).
  set (c1 := cos (lat1 * PI / 180)). set (c2 := cos (lat2 * PI / 180)).
  replace (- s * - s + c2 * c1 * - u * - u) with (s * s + c1 * c2 * u * u) by ring.
  reflexivity.
Qed.

Lemma haversine_self lat1 lon1 : calculateDistance lat1 lon1 lat1 lon1 = 0.
Proof.
  unfold calculateDistance.
  replace ((lat1 - lat1) * PI / 180 / 2) with 0 by field.
  replace ((lon1 - lon1) * PI / 180 / 2) with 0 by field.
  rewrite sin_0.
  replace (0 * 0 + cos (lat1 * PI / 180) * cos (lat1 * PI / 180) * 0 * 0) with 0 by ring.
  replace (1 - 0) with 1 by ring.
  rewrite sqrt_0, sqrt_1, atan2_0_1. ring.
Qed.


End GeofenceFacts.

(** C9: the distance function is symmetric in its two points, and the
    distance from a point to itself is zero. *)
Theorem distance_symmetric_and_zero_on_diagonal (a b : Loc.t) :
  Geofence.calculateDistance (Loc.lat a) (Loc.lng a) (Loc.lat b) (Loc.lng b)
  = Geofence.calculateDistance (Loc.lat b) (Loc.lng b) (Loc.lat a) (Loc.lng a)
  ∧ Geofence.calculateDistance (Loc.lat a) (Loc.lng a) (Loc.lat a) (Loc.lng a) = 0%R.
Proof.
  split; [apply haversine_swap | apply haversine_self].
Qed.

(** *** The evaluation in double precision *)

Lemma fsub_self (D : Geofence.Doubles) (x : R) :
  Geofence.fsub D (Geofence.Num x) (Geofence.Num x) = Geofence.Num 0.
Proof.
  unfold Geofence.fsub, Geofence.arith.
  replace (x - x)%R with 0%R by ring. apply Geofence.rnd_0.
Qed.

Lemma fmul_0_l (D : Geofence.Doubles) (y : R) :
  Geofence.fmul D (Geofence.Num 0) (Geofence.Num y) = Geofence.Num 0.
Proof.
  unfold Geofence.fmul, Geofence.arith. rewrite Rmult_0_l. apply Geofence.rnd_0.
Qed.

Lemma fmul_0_r (D : Geofence.Doubles) (x : R) :
  Geofence.fmul D (Geofence.Num x) (Geofence.Num 0) = Geofence.Num 0.
Proof.
  unfold Geofence.fmul, Geofence.arith. rewrite Rmult_0_r. apply Geofence.rnd_0.
Qed.

Lemma fdiv_0_l (D : Geofence.Doubles) (y : R) :
  Geofence.fdiv D (Geofence.Num 0) (Geofence.Num y) = Geofence.Num 0.
Proof.
  unfold Geofence.fdiv, Geofence.arith, Rdiv. rewrite Rmult_0_l. apply Geofence.rnd_0.
Qed.

Lemma fsqrt_0 (D : Geofence.Doubles) :
  Geofence.fsqrt D (Geofence.Num 0) = Geofence.Num 0.
Proof.
  unfold Geofence.fsqrt. destruct (Rlt_dec 0 0) as [H|_]; [lra|].
  rewrite sqrt_0. apply Geofence.rnd_0.
Qed.

Lemma fsqrt_1 (D : Geofence.Doubles) :
  Geofence.fsqrt D (Geofence.Num 1) = Geofence.Num 1.
Proof.
  unfold Geofence.fsqrt. destruct (Rlt_dec 1 0) as [H|_]; [lra|].
  rewrite sqrt_1. apply Geofence.rnd_1.
Qed.

(** On every platform the distance from a point to itself evaluates to 0,
    or to NaN when an intermediate product overflows. *)
Lemma distance_double_self (D : Geofence.Doubles) (lat lon : R) :
  Geofence.calculateDistance_double D lat lon lat lon = Geofence.Num 0
  ∨ Geofence.calculateDistance_double D lat lon lat lon = Geofence.NaN.
Proof.
  unfold Geofence.calculateDistance_double. cbv zeta.
  rewrite !fsub_self, !fmul_0_l, !fdiv_0_l.
  assert (Hs : Geofence.fsin D (Geofence.Num 0) = Geofence.Num 0)
    by (unfold Geofence.fsin; rewrite Geofence.Math_sin_0; reflexivity).
  rewrite Hs, fmul_0_l.
  destruct (Geofence.fmul D
              (Geofence.fcos D
                 (Geofence.fdiv D
                    (Geofence.fmul D (Geofence.Num lat) (Geofence.Num (Geofence.Math_PI D)))
                    (Geofence.Num 180)))
              (Geofence.fcos D
                 (Geofence.fdiv D
                    (Geofence.fmul D (Geofence.Num lat) (Geofence.Num (Geofence.Math_PI D)))
                    (Geofence.Num 180)))) as [|c].
  - right. reflexivity.
  - left. rewrite fmul_0_r, fmul_0_l.
    assert (Ha : Geofence.fadd D (Geofence.Num 0) (Geofence.Num 0) = Geofence.Num 0)
      by (unfold Geofence.fadd, Geofence.arith; rewrite Rplus_0_l; apply Geofence.rnd_0).
    rewrite Ha, fsqrt_0.
    assert (H1 : Geofence.fsub D (Geofence.Num 1) (Geofence.Num 0) = Geofence.Num 1)
      by (unfold Geofence.fsub, Geofence.arith; rewrite Rminus_0_r; apply Geofence.rnd_1).
    rewrite H1, fsqrt_1.
    assert (Ht : Geofence.fatan2 D (Geofence.Num 0) (Geofence.Num 1) = Geofence.Num 0)
      by (unfold Geofence.fatan2; rewrite Geofence.Math_atan2_0_1; reflexivity).
    rewrite Ht, !fmul_0_r. reflexivity.
Qed.


(** The outcome of the geofence block, case by case. *)
Lemma check_cases (D : Geofence.Doubles) (home : HomeConfig.t) (userLoc : Loc.t) :
  let dist := Geofence.calculateDistance_double D (Loc.lat userLoc) (Loc.lng userLoc)
                (HomeConfig.lat home) (HomeConfig.lng home) in
  (HomeConfig.lat home = 0%R ∧ Geofence.check D home userLoc = Geofence.Skipped)
  ∨ (HomeConfig.lat home ≠ 0%R
     ∧ ∃ d, dist = Geofence.Num d ∧ (d > HomeConfig.radiusMeters home)%R
            ∧ Geofence.check D home userLoc = Geofence.Outside d)
  ∨ (HomeConfig.lat home ≠ 0%R
     ∧ (∀ d, dist = Geofence.Num d → ¬ (d > HomeConfig.radiusMeters home)%R)
     ∧ Geofence.check D home userLoc = Geofence.Inside dist).
Proof.
  intros dist. unfold Geofence.check. fold dist.
  destruct (Req_dec_T (HomeConfig.lat home) 0) as [Hz|Hnz]; [left; auto|].
  destruct dist as [|d] eqn:Hd.
  - right; right. split; [exact Hnz|]. split; [intros d; discriminate | reflexivity].
  - destruct (Rgt_dec d (HomeConfig.radiusMeters home)) as [Hgt|Hle].
    + right; left. split; [exact Hnz|]. exists d. auto.
    + right; right. split; [exact Hnz|]. split; [|reflexivity].
      intros d' [= <-]. exact Hle.
Qed.

(** C3 (as stated) fails: a home on the equator away from the prime meridian
    is not [(0,0)], and the check is skipped for it, on every platform. *)
Lemma skipped_iff_origin_fails : ¬ ∃ D, Spec.skipped_iff_origin D.
Proof.
  intros [D H].
  destruct (H (HomeConfig.mk 0 180 200) (Loc.mk 0 0)) as [Hskip _].
  assert (Hs : Geofence.check D (HomeConfig.mk 0 180 200) (Loc.mk 0 0) = Geofence.Skipped).
  { unfold Geofence.check. simpl.
    destruct (Req_dec_T 0 0) as [_|Hne]; [reflexivity | exfalso; apply Hne; reflexivity]. }
  destruct (Hskip Hs) as [_ Hlng]. simpl in Hlng. lra.
Qed.

(** C3 (amended): the geofence check is skipped exactly when the configured
    home latitude is 0, whatever the longitude; for any other home latitude
    the distance is computed and classified against [radiusMeters] (outside
    when it is a number greater than the radius, inside otherwise). *)
Theorem skipped_iff_latitude_zero (D : Geofence.Doubles) (home : HomeConfig.t)
    (userLoc : Loc.t) :
  let dist := Geofence.calculateDistance_double D (Loc.lat userLoc) (Loc.lng userLoc)
                (HomeConfig.lat home) (HomeConfig.lng home) in
  (Geofence.check D home userLoc = Geofence.Skipped ↔ HomeConfig.lat home = 0%R)
  ∧ (∀ d, Geofence.check D home userLoc = Geofence.Outside d
          ↔ HomeConfig.lat home ≠ 0%R ∧ dist = Geofence.Num d
            ∧ (d > HomeConfig.radiusMeters home)%R)
  ∧ (Geofence.check D home userLoc = Geofence.Inside dist
     ↔ HomeConfig.lat home ≠ 0%R
       ∧ ∀ d, dist = Geofence.Num d → ¬ (d > HomeConfig.radiusMeters home)%R).
Proof.
  intros dist.
  destruct (check_cases D home userLoc)
    as [[Hz Hc]|[(Hnz & d0 & Hd & Hgt & Hc)|(Hnz & Hle & Hc)]];
    fold dist in Hc; try fold dist in Hd; try fold dist in Hle; rewrite Hc.
  - split; [tauto|]. split; [intros d|]; split; intros H;
      try discriminate; tauto.
  - split; [split; [discriminate | tauto]|]. split.
    + intros d. split.
      * intros [= <-]. auto.
      * intros (_ & Hd' & _). rewrite Hd in Hd'. congruence.
    + split; [discriminate|]. intros [_ H]. exfalso. exact (H d0 Hd Hgt).
  - split; [split; [discriminate | tauto]|]. split.
    + intros d. split; [discriminate|]. intros (_ & Hd' & Hgt').
      exfalso. exact (Hle d Hd' Hgt').
    + split; auto.
Qed.

(** ** Clock controller *)


(** A distance that evaluates to NaN is not greater than the radius: the
    handler accepts the position. *)
Lemma clock_in_nan_distance (D : Geofence.Doubles) (w : App.World) (now : Z)
    (userLoc : Loc.t) (uuid : string) :
  Geofence.calculateDistance_double D (Loc.lat userLoc) (Loc.lng userLoc)
    (HomeConfig.lat (App.homeConfig (App.state w)))
    (HomeConfig.lng (App.homeConfig (App.state w))) = Geofence.NaN →
  App.activeSession (App.state (App.clockIn D w now (Some userLoc) uuid))
  = Some (newSession uuid now userLoc).
Proof.
  intros Hnan. unfold App.clockIn, App.handleClockIn.
  destruct (check_cases D (App.homeConfig (App.state w)) userLoc)
    as [[_ Hc]|[(_ & d & Hd & _)|(_ & _ & Hc)]].
  - rewrite Hc. reflexivity.
  - rewrite Hnan in Hd. discriminate.
  - rewrite Hc. reflexivity.
Qed.

(** The sync-key revision has no geofence block: every acquired position is
    accepted. *)
Lemma sync_clock_in_accepts_any_position (w : SyncApp.World) (now : Z)
    (userLoc : Loc.t) (uuid : string) :
  SyncApp.activeSession (SyncApp.state (SyncApp.handleClockIn w now (Some userLoc) uuid))
  = Some (newSession uuid now userLoc).
Proof. reflexivity. Qed.




(** A clock-in from [src/App.tsx] that ends without an error has created the
    session and stored it in the active slot. *)
Lemma clock_in_accepted (D : Geofence.Doubles) (w : App.World) (now : Z)
    (userLoc : Loc.t) (uuid : string) :
  let w' := App.clockIn D w now (Some userLoc) uuid in
  App.error (App.state w') = None →
  w' = App.mkWorld
         (App.mkState (App.sessions (App.state w))
            (Some (newSession uuid now userLoc)) CLOCKED_IN None
            (App.homeConfig (App.state w)))
         (<["nanny_active_session" := ItemSession (newSession uuid now userLoc)]>
            (App.storage w)).
Proof.
  intros w'. subst w'. unfold App.clockIn, App.handleClockIn.
  destruct (Geofence.check D (App.homeConfig (App.state w)) userLoc); simpl;
    intros He; try discriminate; reflexivity.
Qed.

Lemma clock_in_latitude_zero_no_error (D : Geofence.Doubles) (w : App.World) (now : Z)
    (userLoc : Loc.t) (uuid : string) :
  HomeConfig.lat (App.homeConfig (App.state w)) = 0%R →
  App.error (App.state (App.clockIn D w now (Some userLoc) uuid)) = None.
Proof.
  intros Hz. unfold App.clockIn, App.handleClockIn.
  destruct (check_cases D (App.homeConfig (App.state w)) userLoc)
    as [[_ Hc]|[[Hnz _]|[Hnz _]]]; try contradiction.
  rewrite Hc. reflexivity.
Qed.

(** C4 (as stated) fails, on every platform: a clock-in at 90 s and a
    clock-out at 0 s on the wall clock record a duration of -1 minute. *)
Lemma duration_never_negative_fails : ¬ ∃ D, Spec.duration_never_negative D.
Proof.
  intros [D H].
  pose (w := App.mkWorld (App.mkState [] None CLOCKED_OUT None (HomeConfig.mk 0 0 200)) ∅).
  destruct (H w 90000 0 (Loc.mk 0 0) "id"%string) as (c & d & Hs & Hd & _ & Hneg).
  - apply clock_in_latitude_zero_no_error. reflexivity.
  - rewrite (clock_in_accepted D w 90000 (Loc.mk 0 0) "id") in Hs
      by (apply clock_in_latitude_zero_no_error; reflexivity).
    simpl in Hs. injection Hs as <-. simpl in Hd.
    rewrite durationMins_div in Hd. injection Hd as <-.
    vm_compute in Hneg. apply Hneg. reflexivity.
Qed.

(** C4 (amended): a clock-in that goes through followed by a clock-out adds
    exactly one session to the list, completed, whose [durationInMinutes]
    is [(endTime - startTime) / 60000] rounded to the nearest integer; the
    duration is not negative exactly when the clock-out instant is not more
    than 30 s before the clock-in instant, so whenever it is not earlier;
    in both revisions. *)
Theorem clock_in_then_out_one_completed_session (D : Geofence.Doubles)
    (w : App.World) (v : SyncApp.World) (now1 now2 : Z) (userLoc : Loc.t)
    (uuid : string) :
  let c := complete (newSession uuid now1 userLoc) now2 in
  let w1 := App.clockIn D w now1 (Some userLoc) uuid in
  let w2 := App.clockOut w1 now2 in
  let v2 := SyncApp.handleClockOut (SyncApp.handleClockIn v now1 (Some userLoc) uuid) now2 in
  App.error (App.state w1) = None →
  App.sessions (App.state w2) = c :: App.sessions (App.state w)
  ∧ App.activeSession (App.state w2) = None
  ∧ SyncApp.sessions (SyncApp.state v2) = c :: SyncApp.sessions (SyncApp.state v)
  ∧ SyncApp.activeSession (SyncApp.state v2) = None
  ∧ completed c
  ∧ startTime c = now1
  ∧ endTime c = Some now2
  ∧ ∃ d : Z,
      durationInMinutes c = Some d
      ∧ Spec.nearest_integer d (inject_Z (now2 - now1) / 60000)
      ∧ d = (now2 - now1 + 30000) / 60000
      ∧ (0 ≤ d ↔ now1 - 30000 ≤ now2)
      ∧ (now1 ≤ now2 → 0 ≤ d).
Proof.
  intros c w1 w2 v2 Hok.
  pose proof (clock_in_accepted D w now1 userLoc uuid Hok) as Hw1.
  subst w2. fold w1 in Hw1. rewrite Hw1.
  repeat split; try reflexivity; try (simpl; eauto; fail).
  exists (durationMins now2 now1). simpl.
  split; [reflexivity|].
  split; [apply durationMins_nearest|].
  split; [apply durationMins_div|].
  split; [|apply durationMins_nonneg].
  rewrite durationMins_div.
  pose proof (Z.div_mod (now2 - now1 + 30000) 60000 ltac:(lia)) as Hdm.
  pose proof (Z.mod_pos_bound (now2 - now1 + 30000) 60000 ltac:(lia)) as Hb.
  split; intros H; lia.
Qed.

Lemma clock_in_then_out_one_completed_session_witness :
  let w := App.mkWorld (App.mkState [] None CLOCKED_OUT None (HomeConfig.mk 0 0 200)) ∅ in
  let v := SyncApp.mkWorld (SyncApp.initialState "our-nanny-2024") ∅ in
  let c := complete (newSession "id" 0 (Loc.mk 0 0)) 90000 in
  App.sessions
    (App.state (App.clockOut (App.clockIn Geofence.Exact w 0 (Some (Loc.mk 0 0)) "id") 90000))
  = [c]
  ∧ SyncApp.sessions
      (SyncApp.state
         (SyncApp.handleClockOut (SyncApp.handleClockIn v 0 (Some (Loc.mk 0 0)) "id") 90000))
    = [c]
  ∧ durationInMinutes c = Some 2.
Proof.
  intros w v c.
  destruct (clock_in_then_out_one_completed_session Geofence.Exact w v 0 90000
              (Loc.mk 0 0) "id")
    as (Ha & _ & Hs & _ & _ & _ & _ & d & Hd & _ & Hval & _).
  - apply clock_in_latitude_zero_no_error. reflexivity.
  - split; [exact Ha|]. split; [exact Hs|]. fold c in Hd. rewrite Hd, Hval. reflexivity.
Defined.

(** C7: with no active session a clock-out changes nothing: the session
    list, the active slot, the status and the storage stay as they were; in
    both revisions. *)
Theorem clock_out_without_active_session_is_noop
    (w : App.World) (v : SyncApp.World) (now : Z) :
  App.activeSession (App.state w) = None →
  SyncApp.activeSession (SyncApp.state v) = None →
  App.clockOut w now = w ∧ SyncApp.handleClockOut v now = v.
Proof.
  intros Hw Hv. unfold App.clockOut, App.handleClockOut, SyncApp.handleClockOut.
  rewrite Hw, Hv. split; reflexivity.
Qed.

Lemma clock_out_without_active_session_is_noop_witness :
  let w := App.mkWorld (App.mkState [] None CLOCKED_OUT None (HomeConfig.mk 0 0 200)) ∅ in
  let v := SyncApp.mkWorld (SyncApp.initialState "our-nanny-2024") ∅ in
  App.clockOut w 1710936000000 = w ∧ SyncApp.handleClockOut v 1710936000000 = v.
Proof.
  intros w v.
  apply (clock_out_without_active_session_is_noop w v 1710936000000); reflexivity.
Defined.

(** ** Session lifecycle invariants *)

Lemma completed_not_in_progress (s : TimeSession) : completed s → ¬ in_progress s.
Proof. intros [[e He] _] [Hn _]. congruence. Qed.

Lemma complete_completed (a : TimeSession) (now : Z) : completed (complete a now).
Proof. split; simpl; eauto. Qed.

Lemma newSession_in_progress (uuid : string) (now : Z) (userLoc : Loc.t) :
  in_progress (newSession uuid now userLoc).
Proof. split; reflexivity. Qed.

Lemma status_matches_in (a : TimeSession) : Spec.status_matches CLOCKED_IN (Some a).
Proof. unfold Spec.status_matches. repeat split; intros; congruence. Qed.

Lemma status_matches_out : Spec.status_matches CLOCKED_OUT None.
Proof. unfold Spec.status_matches. repeat split; intros; congruence. Qed.

(** Mounting [src/App.tsx] on a storage it has written restores the state
    the storage records. *)
Lemma mount_restores (ls : Storage) (l : list TimeSession) (a : option TimeSession)
    (h : HomeConfig.t) :
  ls !! "nanny_sessions" = Some (ItemSessions l) →
  ls !! "nanny_active_session" = ItemSession <$> a →
  ls !! "home_config" = Some (ItemHome h) →
  App.state (App.mount ls)
  = App.mkState l a (match a with Some _ => CLOCKED_IN | None => CLOCKED_OUT end) None h.
Proof.
  intros Hl Ha Hh.
  unfold App.mount, App.loadEffect, App.initialState, App.initialHomeConfig. simpl.
  rewrite Hl, Ha, Hh. destruct a; reflexivity.
Qed.

(** After a mount the storage records the mounted state. *)
Lemma mount_storage (ls : Storage) :
  let w := App.mount ls in
  App.storage w !! "nanny_sessions" = Some (ItemSessions (App.sessions (App.state w)))
  ∧ App.storage w !! "nanny_active_session" = ItemSession <$> App.activeSession (App.state w)
  ∧ App.storage w !! "home_config" = Some (ItemHome (App.homeConfig (App.state w))).
Proof.
  intros w. subst w. unfold App.mount, App.persistActive, App.persistSessions. simpl.
  set (st := App.loadEffect ls (App.initialState ls)).
  destruct (App.activeSession st) as [a|] eqn:Ha; simpl; simplify_map_eq; done.
Qed.

Lemma mount_empty :
  App.state (App.mount ∅) = App.mkState [] None CLOCKED_OUT None (HomeConfig.mk 0 0 200).
Proof. reflexivity. Qed.

(** Whatever the storage holds, the mounted component has a status that
    matches its active slot. *)
Lemma mount_status (ls : Storage) :
  Spec.status_matches (App.status (App.state (App.mount ls)))
    (App.activeSession (App.state (App.mount ls))).
Proof.
  unfold App.mount, App.loadEffect. simpl.
  destruct (ls !! "nanny_sessions") as [[]|];
    destruct (ls !! "nanny_active_session") as [[]|]; simpl;
    first [apply status_matches_in | apply status_matches_out].
Qed.

Lemma app_status_invariant (D : Geofence.Doubles) (ls0 : Storage) (w : App.World) :
  App.reachable D ls0 w →
  Spec.status_matches (App.status (App.state w)) (App.activeSession (App.state w)).
Proof.
  induction 1 as [|w now pos uuid _ IH|w now _ IH|w _ _].
  - apply mount_status.
  - destruct pos as [userLoc|]; [|exact IH].
    unfold App.clockIn, App.handleClockIn.
    destruct (Geofence.check D (App.homeConfig (App.state w)) userLoc); simpl;
      first [exact IH | apply status_matches_in].
  - unfold App.clockOut, App.handleClockOut.
    destruct (App.activeSession (App.state w)) eqn:Hw; simpl.
    + apply status_matches_out.
    + rewrite Hw. exact IH.
  - apply mount_status.
Qed.

Lemma app_store_invariant (D : Geofence.Doubles) (w : App.World) :
  App.reachable D ∅ w → Spec.only_completed_listed w.
Proof.
  induction 1 as [|w now pos uuid _ IH|w now _ IH|w _ IH].
  - pose proof (mount_storage ∅) as Hs. cbv zeta in Hs. rewrite mount_empty in Hs.
    unfold Spec.only_completed_listed. rewrite mount_empty. simpl.
    split; [constructor|]. split; [intros a; discriminate|]. exact Hs.
  - destruct IH as (Hc & Ha & Hl & Hact & Hh).
    destruct pos as [userLoc|].
    + destruct (App.error (App.state (App.clockIn D w now (Some userLoc) uuid))) eqn:He.
      * unfold App.clockIn, App.handleClockIn in *.
        destruct (Geofence.check D (App.homeConfig (App.state w)) userLoc);
          simpl in *; try discriminate.
        unfold Spec.only_completed_listed. simpl. auto.
      * rewrite (clock_in_accepted D w now userLoc uuid He).
        unfold Spec.only_completed_listed. simpl.
        split; [exact Hc|]. split.
        { intros a [= <-]. apply newSession_in_progress. }
        simplify_map_eq. auto.
    + unfold App.clockIn. simpl.
      unfold Spec.only_completed_listed. simpl. auto.
  - destruct IH as (Hc & Ha & Hl & Hact & Hh).
    unfold App.clockOut, App.handleClockOut.
    destruct (App.activeSession (App.state w)) as [a|] eqn:Hw.
    + unfold Spec.only_completed_listed, App.persistActive, App.persistSessions. simpl.
      split; [constructor; [apply complete_completed | exact Hc]|].
      split; [intros ?; discriminate|].
      simplify_map_eq. auto.
    + unfold Spec.only_completed_listed. rewrite Hw. auto.
  - destruct IH as (Hc & Ha & Hl & Hact & Hh).
    pose proof (mount_restores _ _ _ _ Hl Hact Hh) as Hst.
    pose proof (mount_storage (App.storage w)) as Hs. cbv zeta in Hs.
    unfold Spec.only_completed_listed. rewrite Hst in *. simpl in *.
    split; [exact Hc|split; [exact Ha|exact Hs]].
Qed.

(** C10: after the initial load, on whatever the storage holds, and after
    every clock-in and clock-out of [src/App.tsx], the status is
    [CLOCKED_IN] exactly when the active slot is filled and [CLOCKED_OUT]
    exactly when it is empty; it is never [IDLE]. *)
Theorem status_tracks_active_slot (D : Geofence.Doubles) (ls0 : Storage) (w : App.World) :
  App.reachable D ls0 w →
  (App.status (App.state w) = CLOCKED_IN ↔ App.activeSession (App.state w) ≠ None)
  ∧ (App.status (App.state w) = CLOCKED_OUT ↔ App.activeSession (App.state w) = None)
  ∧ App.status (App.state w) ≠ IDLE.
Proof.
  intros Hr. exact (app_status_invariant D ls0 w Hr).
Qed.

Lemma status_tracks_active_slot_witness :
  let w := App.clockOut (App.clockIn Geofence.Exact (App.mount ∅) 0 (Some (Loc.mk 0 0)) "id") 90000 in
  (App.status (App.state w) = CLOCKED_IN ↔ App.activeSession (App.state w) ≠ None)
  ∧ (App.status (App.state w) = CLOCKED_OUT ↔ App.activeSession (App.state w) = None)
  ∧ App.status (App.state w) ≠ IDLE.
Proof.
  intros w. apply (status_tracks_active_slot Geofence.Exact ∅ w).
  apply App.reach_clockOut, App.reach_clockIn, App.reach_mount.
Defined.

(** The same holds in the sync-key revision. *)
Lemma sync_load_keeps_status (ls : Storage) (st : SyncApp.State) :
  Spec.status_matches (SyncApp.status st) (SyncApp.activeSession st) →
  Spec.status_matches (SyncApp.status (SyncApp.loadEffect ls st))
    (SyncApp.activeSession (SyncApp.loadEffect ls st)).
Proof.
  intros H. unfold SyncApp.loadEffect.
  destruct (ls !! SyncApp.sessionsKey (SyncApp.syncKey st)) as [[]|];
    destruct (ls !! SyncApp.activeKey (SyncApp.syncKey st)) as [[]|];
    simpl; try exact H; apply status_matches_in.
Qed.

Lemma sync_status_tracks_active_slot (ls0 : Storage) (w : SyncApp.World) :
  SyncApp.reachable ls0 w →
  Spec.status_matches (SyncApp.status (SyncApp.state w))
    (SyncApp.activeSession (SyncApp.state w)).
Proof.
  induction 1 as [|w now pos uuid _ IH|w now _ IH|w newKey _ IH|w _ IH].
  - apply sync_load_keeps_status, status_matches_out.
  - destruct pos; simpl; [apply status_matches_in | exact IH].
  - unfold SyncApp.handleClockOut.
    destruct (SyncApp.activeSession (SyncApp.state w)) eqn:Ha; simpl.
    + apply status_matches_out.
    + rewrite Ha. exact IH.
  - unfold SyncApp.changeKey. destruct newKey as [k|]; [|exact IH].
    destruct (String.eqb k ""); [exact IH|].
    destruct (String.eqb k (SyncApp.syncKey (SyncApp.state w))); simpl; [exact IH|].
    apply sync_load_keeps_status. exact IH.
  - apply sync_load_keeps_status, status_matches_out.
Qed.

(** ** Session store *)

(** In [src/App.tsx] every listed session, in memory and in the store, is a
    completed one, and the active session is an unfinished one kept in its
    own slot. *)
Lemma app_lists_only_completed (D : Geofence.Doubles) (w : App.World) :
  App.reachable D ∅ w →
  Forall completed (App.sessions (App.state w))
  ∧ App.storedSessions (App.storage w) = App.sessions (App.state w)
  ∧ (∀ a, App.activeSession (App.state w) = Some a →
          in_progress a ∧ a ∉ App.sessions (App.state w)).
Proof.
  intros Hr. destruct (app_store_invariant D w Hr) as (Hc & Ha & Hl & _).
  split; [exact Hc|]. split.
  - unfold App.storedSessions. rewrite Hl. reflexivity.
  - intros a Hs. split; [apply Ha, Hs|].
    intros Hin. rewrite Forall_forall in Hc.
    exact (completed_not_in_progress a (Hc a Hin) (Ha a Hs)).
Qed.

(** C5 fails on the sync-key revision: a clock-in on the freshly mounted
    component stores the unfinished session at the head of the stored
    session list, while the in-memory list stays empty; after a reload and a
    clock-out the list holds the session twice, once unfinished. *)
Theorem sync_clock_in_stores_unfinished_session :
  let a := newSession "id" 1710936000000 (Loc.mk 40 (-73)) in
  let w := SyncApp.handleClockIn (SyncApp.mount ∅) 1710936000000 (Some (Loc.mk 40 (-73))) "id" in
  let w' := SyncApp.handleClockOut (SyncApp.mount (SyncApp.storage w)) 1710943200000 in
  SyncApp.reachable ∅ w
  ∧ SyncApp.activeSession (SyncApp.state w) = Some a
  ∧ SyncApp.sessions (SyncApp.state w) = []
  ∧ SyncApp.storedSessions "our-nanny-2024" (SyncApp.storage w) = [a]
  ∧ ¬ completed a
  ∧ SyncApp.sessions (SyncApp.state w') = [complete a 1710943200000; a]
  ∧ SyncApp.storedSessions "our-nanny-2024" (SyncApp.storage w')
    = [complete a 1710943200000; a].
Proof.
  intros a w w'.
  split; [apply SyncApp.reach_clockIn, SyncApp.reach_mount|].
  split; [reflexivity|]. split; [reflexivity|]. split; [reflexivity|].
  split; [intros [[e He] _]; discriminate|].
  split; reflexivity.
Qed.

Lemma sync_store_completed_fails : ¬ Spec.sync_store_completed.
Proof.
  intros H.
  pose (a := newSession "id" 1710936000000 (Loc.mk 40 (-73))).
  pose (w := SyncApp.handleClockIn (SyncApp.mount ∅) 1710936000000
               (Some (Loc.mk 40 (-73))) "id").
  assert (Hr : SyncApp.reachable ∅ w)
    by apply SyncApp.reach_clockIn, SyncApp.reach_mount.
  specialize (H w Hr).
  assert (Hs : SyncApp.storedSessions (SyncApp.syncKey (SyncApp.state w))
                 (SyncApp.storage w) = [a]) by reflexivity.
  rewrite Hs in H. inversion H as [|? ? [[e He] _] _]. discriminate.
Qed.

(** C8 fails in the sync-key revision: a shift is recorded and saved under
    the key ["our-nanny-2024"], the page is loaded again, and the key is
    changed to ["B"], under which nothing is stored.  The effect on
    [[syncKey]] reads nothing and sets nothing: the list of the first key
    stays in the state, under the key ["B"]. *)
Theorem key_change_keeps_previous_list :
  let c := complete (newSession "id" 1710936000000 (Loc.mk 40 (-73))) 1710943200000 in
  let w1 := SyncApp.handleClockOut
              (SyncApp.handleClockIn (SyncApp.mount ∅) 1710936000000
                 (Some (Loc.mk 40 (-73))) "id")
              1710943200000 in
  let w2 := SyncApp.mount (SyncApp.storage w1) in
  let w3 := SyncApp.changeKey w2 (Some "B"%string) in
  SyncApp.reachable ∅ w3
  ∧ SyncApp.syncKey (SyncApp.state w2) = "our-nanny-2024"%string
  ∧ SyncApp.storedSessions "our-nanny-2024" (SyncApp.storage w1) = [c]
  ∧ SyncApp.syncKey (SyncApp.state w3) = "B"%string
  ∧ SyncApp.storage w3 !! SyncApp.sessionsKey "B" = None
  ∧ SyncApp.storage w3 !! SyncApp.activeKey "B" = None
  ∧ SyncApp.sessions (SyncApp.state w3) = [c].
Proof.
  intros c w1 w2 w3. split.
  - apply SyncApp.reach_changeKey, SyncApp.reach_reload, SyncApp.reach_clockOut,
      SyncApp.reach_clockIn, SyncApp.reach_mount.
  - repeat split; reflexivity.
Qed.

Lemma sessionsKey_inj (A B : string) :
  SyncApp.sessionsKey A = SyncApp.sessionsKey B → A = B.
Proof. cbv [SyncApp.sessionsKey String.append]. intros H. congruence. Qed.

Lemma activeKey_inj (A B : string) :
  SyncApp.activeKey A = SyncApp.activeKey B → A = B.
Proof. cbv [SyncApp.activeKey String.append]. intros H. congruence. Qed.

Lemma sessionsKey_not_activeKey (A B : string) :
  SyncApp.sessionsKey A ≠ SyncApp.activeKey B.
Proof. cbv [SyncApp.sessionsKey SyncApp.activeKey String.append]. intros H. congruence. Qed.

(** What is stored for one sync key is not touched by a save under
    another. *)
Lemma save_other_key (A B : string) (data : list TimeSession)
    (active : option TimeSession) (ls : Storage) :
  A ≠ B →
  SyncApp.saveToCloud A data active ls !! SyncApp.sessionsKey B = ls !! SyncApp.sessionsKey B
  ∧ SyncApp.saveToCloud A data active ls !! SyncApp.activeKey B = ls !! SyncApp.activeKey B.
Proof.
  intros Hne.
  assert (Hss : SyncApp.sessionsKey A ≠ SyncApp.sessionsKey B)
    by (intros H; apply Hne, sessionsKey_inj, H).
  assert (Haa : SyncApp.activeKey A ≠ SyncApp.activeKey B)
    by (intros H; apply Hne, activeKey_inj, H).
  pose proof (sessionsKey_not_activeKey A B) as Hsa.
  pose proof (sessionsKey_not_activeKey B A) as Has.
  unfold SyncApp.saveToCloud. destruct active as [a|].
  - rewrite !lookup_insert_ne by congruence. split; reflexivity.
  - rewrite !lookup_delete_ne, !lookup_insert_ne by congruence. split; reflexivity.
Qed.

(** At the level of the storage, what is saved under one sync key is not
    read under another: with nothing stored under [B], after a save under
    [A] the reads for [B] are absent and a component that loads under [B]
    from its initial state has an empty list and no active session; what a
    load under [B] yields does not depend on the save under [A]. *)
Lemma partitions_do_not_leak (A B : string) (data : list TimeSession)
    (active : option TimeSession) (ls : Storage) :
  A ≠ B →
  ls !! SyncApp.sessionsKey B = None →
  ls !! SyncApp.activeKey B = None →
  let ls' := SyncApp.saveToCloud A data active ls in
  ls' !! SyncApp.sessionsKey B = None
  ∧ ls' !! SyncApp.activeKey B = None
  ∧ SyncApp.storedSessions B ls' = []
  ∧ SyncApp.sessions (SyncApp.loadEffect ls' (SyncApp.initialState B)) = []
  ∧ SyncApp.activeSession (SyncApp.loadEffect ls' (SyncApp.initialState B)) = None
  ∧ SyncApp.status (SyncApp.loadEffect ls' (SyncApp.initialState B)) = CLOCKED_OUT
  ∧ ∀ st, SyncApp.syncKey st = B → SyncApp.loadEffect ls' st = SyncApp.loadEffect ls st.
Proof.
  intros Hne Hs Ha ls'.
  destruct (save_other_key A B data active ls Hne) as [Hs' Ha'].
  fold ls' in Hs', Ha'.
  assert (Hframe : ∀ st, SyncApp.syncKey st = B →
                         SyncApp.loadEffect ls' st = SyncApp.loadEffect ls st).
  { intros st <-. unfold SyncApp.loadEffect. rewrite Hs', Ha'. reflexivity. }
  assert (Hinit : SyncApp.loadEffect ls (SyncApp.initialState B) = SyncApp.initialState B).
  { unfold SyncApp.loadEffect. simpl. rewrite Hs, Ha. reflexivity. }
  rewrite (Hframe (SyncApp.initialState B) eq_refl), Hinit.
  unfold SyncApp.storedSessions. rewrite Hs', Ha', Hs, Ha.
  repeat split; try reflexivity. exact Hframe.
Qed.

Lemma partitions_do_not_leak_witness :
  let a := newSession "id" 1710936000000 (Loc.mk 40 (-73)) in
  let ls' := SyncApp.saveToCloud "A" [complete a 1710943200000] (Some a) ∅ in
  ls' !! SyncApp.sessionsKey "B" = None
  ∧ ls' !! SyncApp.activeKey "B" = None
  ∧ SyncApp.storedSessions "B" ls' = []
  ∧ SyncApp.sessions (SyncApp.loadEffect ls' (SyncApp.initialState "B")) = []
  ∧ SyncApp.activeSession (SyncApp.loadEffect ls' (SyncApp.initialState "B")) = None
  ∧ SyncApp.status (SyncApp.loadEffect ls' (SyncApp.initialState "B")) = CLOCKED_OUT
  ∧ ∀ st, SyncApp.syncKey st = "B"%string →
          SyncApp.loadEffect ls' st = SyncApp.loadEffect ∅ st.
Proof.
  intros a ls'.
  apply (partitions_do_not_leak "A" "B" [complete a 1710943200000] (Some a) ∅).
  - discriminate.
  - reflexivity.
  - reflexivity.
Defined.

(** ** Period filter and aggregator *)


(** [setDate] moves an instant by whole days. *)
Lemma setDate_shift (LocalTZA t dt : Z) :
  JsDate.setDate LocalTZA t dt
  = t + (dt - JsDate.getDate LocalTZA t) * JsDate.msPerDay.
Proof.
  unfold JsDate.setDate, JsDate.getDate, JsDate.UTC, JsDate.MakeDate,
    JsDate.TimeWithinDay, JsDate.Day, JsDate.LocalTime.
  generalize (JsDate.DateFromTime (t + LocalTZA)). intros D.
  unfold JsDate.msPerDay.
  pose proof (Z.div_mod (t + LocalTZA) 86400000 ltac:(lia)) as Hdm.
  lia.
Qed.

(** The lower bound of the code's window is the specified one. *)
Lemma startOfPeriod_spec (LocalTZA now periodOffset : Z) :
  Payroll.startOfPeriod LocalTZA now periodOffset = Spec.windowStart now periodOffset.
Proof.
  unfold Payroll.startOfPeriod, Spec.windowStart, Payroll.cycleDays.
  rewrite setDate_shift. unfold JsDate.msPerDay. lia.
Qed.

(** The upper bound is the day of the month of the window start plus 14,
    taken in the month of [now]. *)
Lemma endOfPeriod_shift (LocalTZA now periodOffset : Z) :
  Payroll.endOfPeriod LocalTZA now periodOffset
  = now + (JsDate.getDate LocalTZA (Spec.windowStart now periodOffset) + 14
           - JsDate.getDate LocalTZA now) * JsDate.msPerDay.
Proof.
  unfold Payroll.endOfPeriod. rewrite startOfPeriod_spec, setDate_shift.
  reflexivity.
Qed.

(** When the window starts in the month of [now], the code's window is the
    specified one. *)
Lemma filter_is_window_same_month (LocalTZA now periodOffset : Z)
    (sessions : list TimeSession) :
  JsDate.getDate LocalTZA (Spec.windowStart now periodOffset)
  = JsDate.getDate LocalTZA now - 14 * (periodOffset + 1) →
  Payroll.filteredSessions LocalTZA now periodOffset sessions
  = List.filter (Spec.inWindow now periodOffset) sessions.
Proof.
  intros Hsame. unfold Payroll.filteredSessions, Spec.inWindow.
  rewrite startOfPeriod_spec, endOfPeriod_shift, Hsame.
  replace (now + (JsDate.getDate LocalTZA now - 14 * (periodOffset + 1) + 14
                  - JsDate.getDate LocalTZA now) * JsDate.msPerDay)
    with (Spec.windowEnd now periodOffset)
    by (unfold Spec.windowEnd, Spec.windowStart, JsDate.msPerDay; lia).
  reflexivity.
Qed.

(** C2 fails when the window starts in an earlier month.  On 2024-03-20
    12:00 UTC with [periodOffset = 1] the window should be
    [2024-02-21, 2024-03-06]; the code takes day 21 + 14 = 35 of March as
    the upper bound, 2024-04-04, and a session started on 2024-03-15 is
    returned for the previous period. *)
Theorem previous_period_returns_current_sessions :
  let now := 1710936000000 in
  let s := mkSession "id" 1710504000000 (Some 1710511200000) (Some 120) None
             (Some false) None in
  Payroll.startOfPeriod 0 now 1 = 1708516800000
  ∧ Spec.windowEnd now 1 = 1709726400000
  ∧ Payroll.endOfPeriod 0 now 1 = 1712232000000
  ∧ Payroll.filteredSessions 0 now 1 [s] = [s]
  ∧ List.filter (Spec.inWindow now 1) [s] = [].
Proof. repeat split; vm_compute; reflexivity. Qed.

Lemma filter_is_window_fails : ¬ Spec.filter_is_window.
Proof.
  intros H.
  specialize (H 0 1710936000000 1
                [mkSession "id" 1710504000000 None None None None None]
                ltac:(lia)).
  vm_compute in H. discriminate H.
Qed.

(** The effect on [[syncKey]] sets nothing when nothing is stored for the
    new key: a key change at run time keeps the list and the active session
    that are in memory. *)
Lemma change_key_nothing_stored (w : SyncApp.World) (k : string) :
  k ≠ ""%string →
  k ≠ SyncApp.syncKey (SyncApp.state w) →
  SyncApp.storage w !! SyncApp.sessionsKey k = None →
  SyncApp.storage w !! SyncApp.activeKey k = None →
  SyncApp.sessions (SyncApp.state (SyncApp.changeKey w (Some k)))
  = SyncApp.sessions (SyncApp.state w)
  ∧ SyncApp.activeSession (SyncApp.state (SyncApp.changeKey w (Some k)))
    = SyncApp.activeSession (SyncApp.state w).
Proof.
  intros Hk Hne Hs Ha. unfold SyncApp.changeKey.
  apply String.eqb_neq in Hk, Hne. rewrite Hk, Hne.
  unfold SyncApp.loadEffect. simpl.
  assert (H1 : "nanny_sync_key"%string ≠ SyncApp.sessionsKey k)
    by (cbv [SyncApp.sessionsKey String.append]; congruence).
  assert (H2 : "nanny_sync_key"%string ≠ SyncApp.activeKey k)
    by (cbv [SyncApp.activeKey String.append]; congruence).
  rewrite !lookup_insert_ne, Hs, Ha by assumption. split; reflexivity.
Qed.

(** * Further properties *)

(** ** Further properties of the geofence evaluator *)

(** X2: with a radius that is not negative, a clock-in from the home
    coordinate itself is never rejected: the session is created, whether the
    check is skipped or run. *)
Theorem clock_in_at_home_accepted (D : Geofence.Doubles) (w : App.World) (now : Z) (uuid : string) :
  let home := App.homeConfig (App.state w) in
  let here := Loc.mk (HomeConfig.lat home) (HomeConfig.lng home) in
  (0 <= HomeConfig.radiusMeters home)%R →
  App.error (App.state (App.clockIn D w now (Some here) uuid)) = None
  ∧ App.activeSession (App.state (App.clockIn D w now (Some here) uuid))
    = Some (newSession uuid now here)
  ∧ App.status (App.state (App.clockIn D w now (Some here) uuid)) = CLOCKED_IN.
Proof.
  intros home here Hr.
  assert (He : App.error (App.state (App.clockIn D w now (Some here) uuid)) = None).
  { unfold App.clockIn, App.handleClockIn.
    destruct (check_cases D (App.homeConfig (App.state w)) here)
      as [[_ Hc]|[(_ & d & Hd & Hgt & _)|(_ & _ & Hc)]].
    - rewrite Hc. reflexivity.
    - exfalso. subst here home. simpl in Hd.
      destruct (distance_double_self D
                  (HomeConfig.lat (App.homeConfig (App.state w)))
                  (HomeConfig.lng (App.homeConfig (App.state w)))) as [H0|Hnan];
        rewrite Hd in *; [injection H0 as ->; lra | discriminate].
    - rewrite Hc. reflexivity. }
  rewrite (clock_in_accepted D w now here uuid He). auto.
Qed.

Lemma clock_in_at_home_accepted_witness :
  let w := App.mkWorld
             (App.mkState [] None CLOCKED_OUT None (HomeConfig.mk 40 (-73) 100)) ∅ in
  App.error (App.state (App.clockIn Geofence.Exact w 0 (Some (Loc.mk 40 (-73))) "id")) = None
  ∧ App.activeSession (App.state (App.clockIn Geofence.Exact w 0 (Some (Loc.mk 40 (-73))) "id"))
    = Some (newSession "id" 0 (Loc.mk 40 (-73)))
  ∧ App.status (App.state (App.clockIn Geofence.Exact w 0 (Some (Loc.mk 40 (-73))) "id")) = CLOCKED_IN.
Proof.
  intros w. apply (clock_in_at_home_accepted Geofence.Exact w 0 "id"). simpl. lra.
Defined.

(** X3: the distance does not change when the home longitude is given a full
    turn further east. *)
Theorem distance_longitude_full_turn (lat1 lon1 lat2 lon2 : R) :
  Geofence.calculateDistance lat1 lon1 lat2 (lon2 + 360)
  = Geofence.calculateDistance lat1 lon1 lat2 lon2.
Proof.
  unfold Geofence.calculateDistance.
  replace ((lon2 + 360 - lon1) * PI / 180 / 2)%R
    with ((lon2 - lon1) * PI / 180 / 2 + PI)%R by field.
  rewrite neg_sin.
  set (u := sin ((lon2 - lon1) * PI / 180 / 2)).
  set (s := sin ((lat2 - lat1) * PI / 180 / 2)).
  set (c1 := cos (lat1 * PI / 180)). set (c2 := cos (lat2 * PI / 180)).
  replace (s * s + c1 * c2 * - u * - u)%R with (s * s + c1 * c2 * u * u)%R by ring.
  reflexivity.
Qed.


(** ** Further properties of the clock controller *)

(** X4: a clock-in either goes through, and then the new session fills the
    active slot with status [CLOCKED_IN], or it is rejected, and then nothing
    but the error message changes: list, active slot, status and storage are
    as before.  In [src/App.tsx] and in the sync-key revision. *)
Theorem clock_in_all_or_nothing (D : Geofence.Doubles) (w : App.World) (v : SyncApp.World) (now : Z)
    (pos : option Loc.t) (uuid : string) :
  let w' := App.clockIn D w now pos uuid in
  let v' := SyncApp.handleClockIn v now pos uuid in
  ((∃ userLoc, pos = Some userLoc
      ∧ App.error (App.state w') = None
      ∧ App.activeSession (App.state w') = Some (newSession uuid now userLoc)
      ∧ App.status (App.state w') = CLOCKED_IN)
   ∨ (is_Some (App.error (App.state w'))
      ∧ App.sessions (App.state w') = App.sessions (App.state w)
      ∧ App.activeSession (App.state w') = App.activeSession (App.state w)
      ∧ App.status (App.state w') = App.status (App.state w)
      ∧ App.storage w' = App.storage w))
  ∧ ((∃ userLoc, pos = Some userLoc
      ∧ SyncApp.error (SyncApp.state v') = None
      ∧ SyncApp.activeSession (SyncApp.state v') = Some (newSession uuid now userLoc)
      ∧ SyncApp.status (SyncApp.state v') = CLOCKED_IN)
     ∨ (pos = None
        ∧ is_Some (SyncApp.error (SyncApp.state v'))
        ∧ SyncApp.sessions (SyncApp.state v') = SyncApp.sessions (SyncApp.state v)
        ∧ SyncApp.activeSession (SyncApp.state v') = SyncApp.activeSession (SyncApp.state v)
        ∧ SyncApp.status (SyncApp.state v') = SyncApp.status (SyncApp.state v)
        ∧ SyncApp.storage v' = SyncApp.storage v)).
Proof.
  intros w' v'. subst w' v'. split.
  - unfold App.clockIn, App.handleClockIn. destruct pos as [userLoc|].
    + destruct (Geofence.check D (App.homeConfig (App.state w)) userLoc); simpl.
      * left. exists userLoc. auto.
      * left. exists userLoc. auto.
      * right. repeat split; eauto.
    + right. simpl. repeat split; eauto.
  - unfold SyncApp.handleClockIn. destruct pos as [userLoc|]; simpl.
    + left. exists userLoc. auto.
    + right. repeat split; eauto.
Qed.

(** X5: the recorded duration is 0 exactly when the clock-out instant lies
    from 30 s before to less than 30 s after the start, and it is negative
    exactly when the clock-out instant is more than 30 s before the start:
    the handler does not clamp. *)
Theorem duration_zero_and_negative (a : TimeSession) (now : Z) :
  (durationInMinutes (complete a now) = Some 0
   ↔ startTime a - 30000 ≤ now < startTime a + 30000)
  ∧ ((∃ d, durationInMinutes (complete a now) = Some d ∧ d < 0)
     ↔ now < startTime a - 30000).
Proof.
  simpl. rewrite durationMins_div.
  set (m := now - startTime a).
  pose proof (Z.div_mod (m + 30000) 60000 ltac:(lia)) as Hdm.
  pose proof (Z.mod_pos_bound (m + 30000) 60000 ltac:(lia)) as Hb.
  set (q := (m + 30000) / 60000) in *.
  split; split.
  - intros [= Hq]. lia.
  - intros H. f_equal. lia.
  - intros (d & [= Hd] & Hneg). lia.
  - intros H. exists q. split; [reflexivity | lia].
Qed.

(** Mounting on a storage that records a state leaves the storage as it
    is. *)
Lemma mount_storage_fixed (ls : Storage) (l : list TimeSession)
    (a : option TimeSession) (h : HomeConfig.t) :
  ls !! "nanny_sessions" = Some (ItemSessions l) →
  ls !! "nanny_active_session" = ItemSession <$> a →
  ls !! "home_config" = Some (ItemHome h) →
  App.storage (App.mount ls) = ls.
Proof.
  intros Hl Ha Hh.
  pose proof (mount_restores ls l a h Hl Ha Hh) as Hst.
  unfold App.mount in *. simpl in *. rewrite Hst.
  unfold App.persistActive, App.persistSessions, App.initialState, App.initialHomeConfig.
  simpl. rewrite Hh.
  apply map_eq. intros i.
  destruct a as [a|]; simpl in *;
    destruct (decide (i = "nanny_active_session"%string)) as [Hi1|Hi1];
    destruct (decide (i = "home_config"%string)) as [Hi2|Hi2];
    destruct (decide (i = "nanny_sessions"%string)) as [Hi3|Hi3];
    simplify_map_eq; try done.
Qed.

(** X6: in [src/App.tsx] a page reload restores the session list, the
    active session, the status and the home configuration from the storage
    (only the error message is dropped) and leaves the storage unchanged. *)
Theorem reload_restores_state (D : Geofence.Doubles) (w : App.World) :
  App.reachable D ∅ w →
  App.state (App.mount (App.storage w))
  = App.mkState (App.sessions (App.state w)) (App.activeSession (App.state w))
      (App.status (App.state w)) None (App.homeConfig (App.state w))
  ∧ App.storage (App.mount (App.storage w)) = App.storage w.
Proof.
  intros Hr.
  destruct (app_store_invariant D w Hr) as (_ & _ & Hl & Ha & Hh).
  pose proof (app_status_invariant D ∅ w Hr) as (Hin & Hout & _).
  split.
  - rewrite (mount_restores _ _ _ _ Hl Ha Hh). f_equal.
    destruct (App.activeSession (App.state w)) eqn:Hact.
    + symmetry. apply Hin. discriminate.
    + symmetry. apply Hout. reflexivity.
  - exact (mount_storage_fixed _ _ _ _ Hl Ha Hh).
Qed.

Lemma reload_restores_state_witness :
  let w := App.clockIn Geofence.Exact (App.mount ∅) 1710936000000 (Some (Loc.mk 40 (-73))) "id" in
  App.state (App.mount (App.storage w))
  = App.mkState (App.sessions (App.state w)) (App.activeSession (App.state w))
      (App.status (App.state w)) None (App.homeConfig (App.state w))
  ∧ App.storage (App.mount (App.storage w)) = App.storage w.
Proof.
  intros w. apply (reload_restores_state Geofence.Exact w).
  apply App.reach_clockIn, App.reach_mount.
Defined.

Lemma complete_well_recorded (a : TimeSession) (now : Z) :
  is_Some (location a) → isOutOfBounds a = Some false →
  well_recorded (complete a now).
Proof.
  intros Hloc Hoob. unfold well_recorded. simpl.
  split; [exact Hloc|]. split; [exact Hoob|]. eauto.
Qed.

Lemma app_well_recorded (D : Geofence.Doubles) (w : App.World) :
  App.reachable D ∅ w →
  Forall well_recorded (App.sessions (App.state w))
  ∧ ∀ a, App.activeSession (App.state w) = Some a →
         is_Some (location a) ∧ isOutOfBounds a = Some false.
Proof.
  induction 1 as [|w now pos uuid Hr IH|w now Hr IH|w Hr IH].
  - rewrite mount_empty. simpl. split; [constructor | intros a; discriminate].
  - destruct IH as [Hl Ha]. destruct pos as [userLoc|]; [|exact (conj Hl Ha)].
    destruct (App.error (App.state (App.clockIn D w now (Some userLoc) uuid))) eqn:He.
    + unfold App.clockIn, App.handleClockIn in *.
      destruct (Geofence.check D (App.homeConfig (App.state w)) userLoc);
        simpl in *; try discriminate. exact (conj Hl Ha).
    + rewrite (clock_in_accepted D w now userLoc uuid He). simpl.
      split; [exact Hl|]. intros a [= <-]. simpl. eauto.
  - destruct IH as [Hl Ha]. unfold App.clockOut, App.handleClockOut.
    destruct (App.activeSession (App.state w)) as [a|] eqn:Hact.
    + simpl. split; [|intros ?; discriminate].
      destruct (Ha a eq_refl) as [Hloc Hoob].
      constructor; [apply complete_well_recorded; assumption | exact Hl].
    + rewrite Hact. exact (conj Hl Ha).
  - destruct (app_store_invariant D w Hr) as (_ & _ & Hs & Hact & Hh).
    rewrite (mount_restores _ _ _ _ Hs Hact Hh). simpl. exact IH.
Qed.

(** X7: in [src/App.tsx], started on an empty storage, every session in the
    list has a location, is not flagged out of bounds, has an end time and
    carries the duration computed from its start and end times; the active
    session has a location and is not flagged either. *)
Theorem sessions_well_recorded (D : Geofence.Doubles) (w : App.World) :
  App.reachable D ∅ w →
  Forall well_recorded (App.sessions (App.state w))
  ∧ ∀ a, App.activeSession (App.state w) = Some a →
         is_Some (location a) ∧ isOutOfBounds a = Some false.
Proof. exact (app_well_recorded D w). Qed.

Lemma sessions_well_recorded_witness :
  let w := App.clockOut
             (App.clockIn Geofence.Exact (App.mount ∅) 1710936000000 (Some (Loc.mk 40 (-73))) "id")
             1710943200000 in
  Forall well_recorded (App.sessions (App.state w))
  ∧ ∀ a, App.activeSession (App.state w) = Some a →
         is_Some (location a) ∧ isOutOfBounds a = Some false.
Proof.
  intros w. apply (sessions_well_recorded Geofence.Exact w).
  apply App.reach_clockOut, App.reach_clockIn, App.reach_mount.
Defined.

(** X8: in [src/App.tsx], started on an empty storage, the session list is
    only ever extended at its head, by a clock-out that completes the active
    session; no clock-in, rejected or accepted, and no reload removes or
    rewrites an entry. *)
Theorem history_only_grows (D : Geofence.Doubles) (w : App.World) (act : AppAction) :
  App.reachable D ∅ w →
  App.sessions (App.state (appStep D w act)) = App.sessions (App.state w)
  ∨ ∃ a now,
      act = ClockOut now
      ∧ App.activeSession (App.state w) = Some a
      ∧ App.sessions (App.state (appStep D w act))
        = complete a now :: App.sessions (App.state w).
Proof.
  intros Hr. destruct act as [now pos uuid|now|]; cbn [appStep].
  - left. unfold App.clockIn, App.handleClockIn.
    destruct pos as [userLoc|]; [|reflexivity].
    destruct (Geofence.check D (App.homeConfig (App.state w)) userLoc); reflexivity.
  - unfold App.clockOut, App.handleClockOut.
    destruct (App.activeSession (App.state w)) as [a|] eqn:Hact.
    + right. exists a, now. auto.
    + left. reflexivity.
  - left. destruct (app_store_invariant D w Hr) as (_ & _ & Hs & Hact & Hh).
    rewrite (mount_restores _ _ _ _ Hs Hact Hh). reflexivity.
Qed.

Lemma history_only_grows_witness :
  let w := App.clockIn Geofence.Exact (App.mount ∅) 1710936000000 (Some (Loc.mk 40 (-73))) "id" in
  let act := ClockOut 1710943200000 in
  App.sessions (App.state (appStep Geofence.Exact w act)) = App.sessions (App.state w)
  ∨ ∃ a now,
      act = ClockOut now
      ∧ App.activeSession (App.state w) = Some a
      ∧ App.sessions (App.state (appStep Geofence.Exact w act))
        = complete a now :: App.sessions (App.state w).
Proof.
  intros w act. apply (history_only_grows Geofence.Exact w act).
  apply App.reach_clockIn, App.reach_mount.
Defined.

(** ** Further properties of the sync-key store *)

(** X9: what [saveToCloud] stores under a key is what the load effect for
    that key puts into the state: the list always; the active session with
    status [CLOCKED_IN] when one was saved.  When none was saved the load
    leaves the active slot and the status as they are: it never clears
    them. *)
Theorem save_then_load (k : string) (data : list TimeSession)
    (active : option TimeSession) (ls : Storage)
    (sessions0 : list TimeSession) (active0 : option TimeSession)
    (status0 : ClockStatus) (error0 : option ErrorMessage) :
  SyncApp.loadEffect (SyncApp.saveToCloud k data active ls)
    (SyncApp.mkState sessions0 active0 status0 error0 k)
  = match active with
    | Some a => SyncApp.mkState data (Some a) CLOCKED_IN error0 k
    | None => SyncApp.mkState data active0 status0 error0 k
    end.
Proof.
  pose proof (sessionsKey_not_activeKey k k) as Hne.
  assert (Hne' : SyncApp.activeKey k ≠ SyncApp.sessionsKey k) by congruence.
  unfold SyncApp.loadEffect, SyncApp.saveToCloud.
  cbn [SyncApp.syncKey SyncApp.sessions SyncApp.activeSession SyncApp.status
       SyncApp.error].
  destruct active as [a|]; simplify_map_eq; reflexivity.
Qed.

Lemma sync_load_keeps_key (ls : Storage) (st : SyncApp.State) :
  SyncApp.syncKey (SyncApp.loadEffect ls st) = SyncApp.syncKey st.
Proof.
  unfold SyncApp.loadEffect.
  destruct (ls !! SyncApp.sessionsKey (SyncApp.syncKey st)) as [[]|];
    destruct (ls !! SyncApp.activeKey (SyncApp.syncKey st)) as [[]|]; reflexivity.
Qed.

(** X10: a cancelled or empty prompt leaves everything as it is; a
    non-empty key becomes the component's sync key, is stored under
    ["nanny_sync_key"], and is the key the component mounts with after a
    reload. *)
Theorem change_key_is_remembered (w : SyncApp.World) (k : string) :
  k ≠ ""%string →
  SyncApp.changeKey w None = w
  ∧ SyncApp.changeKey w (Some ""%string) = w
  ∧ SyncApp.syncKey (SyncApp.state (SyncApp.changeKey w (Some k))) = k
  ∧ SyncApp.storage (SyncApp.changeKey w (Some k)) !! "nanny_sync_key" = Some (ItemText k)
  ∧ SyncApp.syncKey
      (SyncApp.state (SyncApp.mount (SyncApp.storage (SyncApp.changeKey w (Some k))))) = k.
Proof.
  intros Hk. split; [reflexivity|]. split; [reflexivity|].
  assert (Hs : SyncApp.storage (SyncApp.changeKey w (Some k)) !! "nanny_sync_key"
               = Some (ItemText k)).
  { unfold SyncApp.changeKey. apply String.eqb_neq in Hk. rewrite Hk.
    destruct (String.eqb k (SyncApp.syncKey (SyncApp.state w))); simpl;
      apply lookup_insert_eq. }
  split; [|split; [exact Hs|]].
  - unfold SyncApp.changeKey. pose proof Hk as Hk'. apply String.eqb_neq in Hk'.
    rewrite Hk'.
    destruct (String.eqb k (SyncApp.syncKey (SyncApp.state w))) eqn:He; simpl.
    + apply String.eqb_eq in He. congruence.
    + apply sync_load_keeps_key.
  - unfold SyncApp.mount. cbn [SyncApp.state]. rewrite sync_load_keeps_key.
    cbn [SyncApp.initialState SyncApp.syncKey].
    unfold SyncApp.initialSyncKey. rewrite Hs.
    apply String.eqb_neq in Hk. rewrite Hk. reflexivity.
Qed.

Lemma change_key_is_remembered_witness :
  let w := SyncApp.mount ∅ in
  SyncApp.changeKey w None = w
  ∧ SyncApp.changeKey w (Some ""%string) = w
  ∧ SyncApp.syncKey (SyncApp.state (SyncApp.changeKey w (Some "family"%string)))
    = "family"%string
  ∧ SyncApp.storage (SyncApp.changeKey w (Some "family"%string)) !! "nanny_sync_key"
    = Some (ItemText "family")
  ∧ SyncApp.syncKey
      (SyncApp.state
         (SyncApp.mount (SyncApp.storage (SyncApp.changeKey w (Some "family"%string)))))
    = "family"%string.
Proof.
  intros w. apply (change_key_is_remembered w "family"). discriminate.
Defined.

(** X11: after a change to a key under which nothing is stored, the list in
    memory is still the old key's, and the next clock-out saves it, with the
    completed session on top, under the new key. *)
Theorem key_change_carries_sessions (w : SyncApp.World) (k : string)
    (a : TimeSession) (now : Z) :
  k ≠ ""%string →
  k ≠ SyncApp.syncKey (SyncApp.state w) →
  SyncApp.storage w !! SyncApp.sessionsKey k = None →
  SyncApp.storage w !! SyncApp.activeKey k = None →
  SyncApp.activeSession (SyncApp.state w) = Some a →
  let w' := SyncApp.handleClockOut (SyncApp.changeKey w (Some k)) now in
  SyncApp.sessions (SyncApp.state w') = complete a now :: SyncApp.sessions (SyncApp.state w)
  ∧ SyncApp.storedSessions k (SyncApp.storage w')
    = complete a now :: SyncApp.sessions (SyncApp.state w).
Proof.
  intros Hk Hne Hs Ha Hact w'.
  destruct (change_key_nothing_stored w k Hk Hne Hs Ha) as [Hsess Hactive].
  assert (Hkey : SyncApp.syncKey (SyncApp.state (SyncApp.changeKey w (Some k))) = k).
  { unfold SyncApp.changeKey. apply String.eqb_neq in Hk, Hne. rewrite Hk, Hne.
    simpl. apply sync_load_keeps_key. }
  subst w'. unfold SyncApp.handleClockOut.
  rewrite Hactive, Hact, Hsess, Hkey. simpl.
  split; [reflexivity|].
  unfold SyncApp.storedSessions, SyncApp.saveToCloud.
  rewrite lookup_delete_ne by (intros H; exact (sessionsKey_not_activeKey k k (eq_sym H))).
  rewrite lookup_insert_eq. reflexivity.
Qed.

Lemma key_change_carries_sessions_witness :
  let a := newSession "id" 1710936000000 (Loc.mk 40 (-73)) in
  let old := complete (newSession "id0" 1710849600000 (Loc.mk 40 (-73))) 1710856800000 in
  let w := SyncApp.mkWorld
             (SyncApp.mkState [old] (Some a) CLOCKED_IN None "A")
             (SyncApp.saveToCloud "A" (a :: [old]) (Some a) ∅) in
  let w' := SyncApp.handleClockOut (SyncApp.changeKey w (Some "B"%string)) 1710943200000 in
  SyncApp.sessions (SyncApp.state w') = [complete a 1710943200000; old]
  ∧ SyncApp.storedSessions "B" (SyncApp.storage w') = [complete a 1710943200000; old].
Proof.
  intros a old w w'.
  apply (key_change_carries_sessions w "B" a 1710943200000);
    first [discriminate | reflexivity].
Defined.

(** ** Further properties of the period filter *)

(** The day of the year of the March-based calendar either advances by one
    or falls back to 0 from one day to the next. *)
Lemma day_of_year_step (doe : Z) :
  0 ≤ doe < 146096 →
  let doy x :=
    let yoe := (x - x / 1460 + x / 36524 - x / 146096) / 365 in
    x - (365 * yoe + yoe / 4 - yoe / 100) in
  doy (doe + 1) = doy doe + 1 ∨ doy (doe + 1) = 0.
Proof.
  intros H doy. subst doy. cbv beta zeta.
  assert (H0 : doe / 146096 = 0) by (apply Z.div_small; lia).
  rewrite H0.
  assert (H1 : doe + 1 < 146096 ∨ doe + 1 = 146096) by lia.
  destruct H1 as [H1|H1].
  - assert (H2 : (doe + 1) / 146096 = 0) by (apply Z.div_small; lia). rewrite H2.
    assert (Hc : doe / 36524 = 0 ∨ doe / 36524 = 1 ∨ doe / 36524 = 2 ∨ doe / 36524 = 3)
      by (Z.div_mod_to_equations; lia).
    assert (Hc' : (doe + 1) / 36524 = doe / 36524 ∨ (doe + 1) / 36524 = doe / 36524 + 1)
      by (Z.div_mod_to_equations; lia).
    assert (Hd' : (doe + 1) / 1460 = doe / 1460 ∨ (doe + 1) / 1460 = doe / 1460 + 1)
      by (Z.div_mod_to_equations; lia).
    destruct Hc as [Hc|[Hc|[Hc|Hc]]]; destruct Hc' as [Hc'|Hc'];
      destruct Hd' as [Hd'|Hd']; rewrite ?Hc', ?Hd', ?Hc;
      Z.div_mod_to_equations; lia.
  - replace doe with 146095 by lia. vm_compute. auto.
Qed.

(** From one day to the next the day of the month grows by at most one. *)
Lemma dayOfMonth_step (d : Z) : JsDate.dayOfMonth (d + 1) ≤ JsDate.dayOfMonth d + 1.
Proof.
  assert (Hdom : ∀ doy, 1 ≤ doy - (153 * ((5 * doy + 2) / 153) + 2) / 5 + 1)
    by (intros; Z.div_mod_to_equations; lia).
  assert (Hstep : ∀ doy, (doy + 1) - (153 * ((5 * (doy + 1) + 2) / 153) + 2) / 5 + 1
                         ≤ doy - (153 * ((5 * doy + 2) / 153) + 2) / 5 + 1 + 1)
    by (intros; Z.div_mod_to_equations; lia).
  unfold JsDate.dayOfMonth. cbv zeta.
  pose proof (Z.mod_pos_bound (d + 719468) 146097 ltac:(lia)) as Hb.
  assert (Hnext : (d + 1 + 719468) mod 146097 = (d + 719468) mod 146097 + 1
                  ∨ ((d + 719468) mod 146097 = 146096
                     ∧ (d + 1 + 719468) mod 146097 = 0)).
  { assert (Hc : (d + 719468) mod 146097 < 146096 ∨ (d + 719468) mod 146097 = 146096)
      by lia.
    destruct Hc as [Hc|Hc].
    - left. Z.div_mod_to_equations. lia.
    - right. split; [exact Hc|]. Z.div_mod_to_equations. lia. }
  pose proof (Z.mod_pos_bound (d + 1 + 719468) 146097 ltac:(lia)) as Hb'.
  destruct Hnext as [Hn|[Hlast Hn]]; rewrite Hn.
  - set (doe := (d + 719468) mod 146097) in *.
    assert (Hr : 0 ≤ doe < 146096) by lia.
    destruct (day_of_year_step doe Hr) as [Hs|Hs]; cbv zeta beta in Hs; rewrite Hs.
    + apply Hstep.
    + pose proof (Hdom (doe - (365 * ((doe - doe / 1460 + doe / 36524 - doe / 146096) / 365)
                               + (doe - doe / 1460 + doe / 36524 - doe / 146096) / 365 / 4
                               - (doe - doe / 1460 + doe / 36524 - doe / 146096) / 365 / 100))).
      change (0 - (153 * ((5 * 0 + 2) / 153) + 2) / 5 + 1) with 1. lia.
  - rewrite Hlast. vm_compute. discriminate.
Qed.

Lemma dayOfMonth_steps_le (d n : Z) :
  0 ≤ n → JsDate.dayOfMonth (d + n) ≤ JsDate.dayOfMonth d + n.
Proof.
  intros Hn. revert d. pattern n. apply natlike_ind; [| |exact Hn].
  - intros d. rewrite Z.add_0_r. lia.
  - intros m Hm IH d. replace (d + Z.succ m) with (d + m + 1) by lia.
    pose proof (dayOfMonth_step (d + m)). specialize (IH d). lia.
Qed.

(** The upper bound the code computes is never before the specified one. *)
Lemma endOfPeriod_not_before_windowEnd (LocalTZA now periodOffset : Z) :
  0 ≤ periodOffset →
  Spec.windowEnd now periodOffset ≤ Payroll.endOfPeriod LocalTZA now periodOffset.
Proof.
  intros Hk. rewrite endOfPeriod_shift.
  unfold Spec.windowEnd, Spec.windowStart, JsDate.getDate, JsDate.DateFromTime,
    JsDate.Day, JsDate.LocalTime, JsDate.msPerDay.
  set (n := 14 * (periodOffset + 1)).
  replace ((now - n * 86400000 + LocalTZA) / 86400000)
    with ((now + LocalTZA) / 86400000 - n).
  2:{ replace (now - n * 86400000 + LocalTZA) with (now + LocalTZA + (- n) * 86400000) by lia.
      rewrite Z.div_add by lia. lia. }
  set (d := (now + LocalTZA) / 86400000).
  pose proof (dayOfMonth_steps_le (d - n) n ltac:(lia)) as Hle.
  replace (d - n + n) with d in Hle by lia. lia.
Qed.

(** X12: for every period offset from 0 on, the sessions the filter returns
    are sessions of the list that start at or after [now] minus
    14 x (offset+1) days, and every session of the list inside the specified
    14-day window is returned, the one starting exactly at the window start
    included: the filter can return too much, never too little. *)
Theorem filter_keeps_whole_window (LocalTZA now periodOffset : Z)
    (sessions : list TimeSession) (s : TimeSession) :
  0 ≤ periodOffset →
  (In s (Payroll.filteredSessions LocalTZA now periodOffset sessions) →
   In s sessions ∧ Spec.windowStart now periodOffset ≤ startTime s)
  ∧ (In s (List.filter (Spec.inWindow now periodOffset) sessions) →
     In s (Payroll.filteredSessions LocalTZA now periodOffset sessions))
  ∧ (In s sessions → startTime s = Spec.windowStart now periodOffset →
     In s (Payroll.filteredSessions LocalTZA now periodOffset sessions)).
Proof.
  intros Hk.
  pose proof (endOfPeriod_not_before_windowEnd LocalTZA now periodOffset Hk) as Hend.
  unfold Payroll.filteredSessions, Spec.inWindow.
  rewrite startOfPeriod_spec. split; [|split].
  - rewrite filter_In. intros [Hin Hb]. split; [exact Hin|]. lia.
  - rewrite !filter_In. intros [Hin Hb]. split; [exact Hin|]. lia.
  - intros Hin Hs. rewrite filter_In. split; [exact Hin|].
    assert (Spec.windowStart now periodOffset ≤ Spec.windowEnd now periodOffset)
      by (unfold Spec.windowEnd, JsDate.msPerDay; lia).
    lia.
Qed.

Lemma filter_keeps_whole_window_witness :
  let s := mkSession "id" 1708516800000 (Some 1708524000000) (Some 120) None
             (Some false) None in
  In s (Payroll.filteredSessions 0 1710936000000 1 [s]).
Proof.
  intros s.
  destruct (filter_keeps_whole_window 0 1710936000000 1 [s] s ltac:(lia))
    as (_ & _ & H).
  apply H; [left; reflexivity | vm_compute; reflexivity].
Defined.

(** X13: for the current period (offset 0) and a list with no session
    starting after [now], the filter returns exactly the sessions of the
    last 14 days, whatever the date and the time zone offset. *)
Theorem current_period_exact (LocalTZA now : Z) (sessions : list TimeSession) :
  (∀ s, In s sessions → startTime s ≤ now) →
  Payroll.filteredSessions LocalTZA now 0 sessions
  = List.filter (Spec.inWindow now 0) sessions.
Proof.
  intros Hpast.
  pose proof (endOfPeriod_not_before_windowEnd LocalTZA now 0 ltac:(lia)) as Hend.
  assert (Hnow : Spec.windowEnd now 0 = now)
    by (unfold Spec.windowEnd, Spec.windowStart, JsDate.msPerDay; lia).
  unfold Payroll.filteredSessions. apply filter_ext_in. intros s Hin.
  specialize (Hpast s Hin). unfold Spec.inWindow.
  rewrite startOfPeriod_spec, Hnow. f_equal.
  transitivity true; [|symmetry]; apply Z.leb_le; lia.
Qed.

Lemma current_period_exact_witness :
  let s := mkSession "id" 1710504000000 (Some 1710511200000) (Some 120) None
             (Some false) None in
  Payroll.filteredSessions 0 1710936000000 0 [s]
  = List.filter (Spec.inWindow 1710936000000 0) [s].
Proof.
  intros s. apply (current_period_exact 0 1710936000000 [s]).
  intros s' [<-|[]]. simpl. lia.
Defined.

(** ** Further properties of the aggregator *)

Lemma totalHours_sum (l : list TimeSession) :
  Payroll.totalHours l = Payroll.toFixed2 (inject_Z (Spec.sumMinutes l) / 60).
Proof. unfold Payroll.totalHours. rewrite fold_minutes, Z.add_0_l. reflexivity. Qed.

Lemma sumMinutes_app (l1 l2 : list TimeSession) :
  Spec.sumMinutes (l1 ++ l2) = Spec.sumMinutes l1 + Spec.sumMinutes l2.
Proof.
  unfold Spec.sumMinutes. induction l1 as [|s l1 IH]; simpl; [reflexivity|].
  rewrite IH. lia.
Qed.

(** X14: the reported hours, and with them the pay, do not depend on the
    order of the sessions. *)
Theorem totals_order_independent (l l' : list TimeSession) (hourlyRate : Q) :
  Permutation l l' →
  Payroll.totalHours l = Payroll.totalHours l'
  ∧ Payroll.totalPay (Payroll.totalHours l) hourlyRate
    = Payroll.totalPay (Payroll.totalHours l') hourlyRate.
Proof.
  intros Hp.
  assert (Hs : Spec.sumMinutes l = Spec.sumMinutes l').
  { unfold Spec.sumMinutes.
    induction Hp as [|x l1 l2 _ IH|x y l1|l1 l2 l3 _ IH1 _ IH2]; simpl; lia. }
  rewrite !totalHours_sum, Hs. split; reflexivity.
Qed.

Lemma totals_order_independent_witness :
  let s1 := mkSession "a" 0 (Some 3600000) (Some 60) None (Some false) None in
  let s2 := mkSession "b" 7200000 (Some 12600000) (Some 90) None (Some false) None in
  Payroll.totalHours [s1; s2] = Payroll.totalHours [s2; s1]
  ∧ Payroll.totalPay (Payroll.totalHours [s1; s2]) 25
    = Payroll.totalPay (Payroll.totalHours [s2; s1]) 25.
Proof.
  intros s1 s2. apply (totals_order_independent [s1; s2] [s2; s1] 25).
  apply perm_swap.
Defined.

(** X15: a session without [durationInMinutes], such as a shift in
    progress, adds nothing to the reported hours wherever it stands in the
    list. *)
Theorem unfinished_session_adds_no_hours (l1 l2 : list TimeSession) (s : TimeSession) :
  durationInMinutes s = None →
  Payroll.totalHours (l1 ++ s :: l2) = Payroll.totalHours (l1 ++ l2).
Proof.
  intros Hs. rewrite !totalHours_sum, !sumMinutes_app. do 3 f_equal.
  unfold Spec.sumMinutes. simpl. rewrite Hs. reflexivity.
Qed.

Lemma unfinished_session_adds_no_hours_witness :
  let s1 := mkSession "a" 0 (Some 3600000) (Some 60) None (Some false) None in
  Payroll.totalHours ([s1] ++ newSession "b" 7200000 (Loc.mk 40 (-73)) :: [])
  = Payroll.totalHours ([s1] ++ []).
Proof.
  intros s1.
  apply (unfinished_session_adds_no_hours [s1] [] (newSession "b" 7200000 (Loc.mk 40 (-73)))).
  reflexivity.
Defined.

Lemma toFixed2_comp (x y : Q) : x == y → Payroll.toFixed2 x = Payroll.toFixed2 y.
Proof.
  intros He. unfold Payroll.toFixed2.
  destruct (Qlt_le_dec x 0) as [Hx|Hx]; destruct (Qlt_le_dec y 0) as [Hy|Hy].
  - f_equal. apply Qfloor_comp. rewrite He. reflexivity.
  - exfalso. rewrite He in Hx. Lqa.lra.
  - exfalso. rewrite He in Hx. Lqa.lra.
  - apply Qfloor_comp. rewrite He. reflexivity.
Qed.

(** X16: printing a number of hundredths and reading it back gives the same
    number, so at an hourly rate of 1 the reported pay equals the reported
    hours. *)
Theorem toFixed2_parseFloat (n : Z) :
  Payroll.toFixed2 (Payroll.parseFloat n) = n
  ∧ Payroll.totalPay n 1 = n.
Proof.
  assert (H : Payroll.toFixed2 (n # 100) = n).
  { unfold Payroll.toFixed2.
    destruct (Qlt_le_dec (n # 100) 0) as [_|_];
      unfold Qfloor, Qmult, Qplus, Qopp; simpl;
      change (Z.pos (100 * 1 * 2)) with 200; change (1 * Z.pos (100 * 1)) with 100.
    - replace (- n * 100 * 2 + 100) with (100 + (- n) * 200) by lia.
      rewrite Z.div_add by lia. change (100 / 200) with 0. lia.
    - replace (n * 100 * 2 + 100) with (100 + n * 200) by lia.
      rewrite Z.div_add by lia. reflexivity. }
  split; [exact H|].
  unfold Payroll.totalPay, Payroll.parseFloat.
  rewrite (toFixed2_comp ((n # 100) * 1) (n # 100)) by apply Qmult_1_r.
  exact H.
Qed.

Lemma nearest_hundredth_abs (n : Z) (x : Q) :
  Spec.nearest_hundredth n x → (Qabs ((n # 100) - x) <= 1 # 200)%Q.
Proof.
  intros [Hlo Hhi]. apply Qabs_Qle_condition. split; Lqa.lra.
Qed.

(** X17: the pay is computed from the hours already rounded to 2 decimal
    places, so it can differ from the exact hours times the rate by up to
    half a hundredth plus half a hundredth of an hour at the rate. *)
Theorem pay_within_rounding_of_exact (filtered : list TimeSession) (hourlyRate : Q) :
  let exactHours := (inject_Z (Spec.sumMinutes filtered) / 60)%Q in
  let pay := Payroll.totalPay (Payroll.totalHours filtered) hourlyRate in
  (Qabs (Payroll.parseFloat pay - exactHours * hourlyRate)
   <= (1 # 200) + (1 # 200) * Qabs hourlyRate)%Q.
Proof.
  intros exactHours pay.
  pose proof (nearest_hundredth_abs _ _ (toFixed2_nearest
                (Payroll.parseFloat (Payroll.totalHours filtered) * hourlyRate))) as Hp.
  fold (Payroll.totalPay (Payroll.totalHours filtered) hourlyRate) in Hp. fold pay in Hp.
  pose proof (nearest_hundredth_abs _ _ (toFixed2_nearest exactHours)) as Hh.
  subst exactHours. rewrite <- totalHours_sum in Hh.
  set (x := (inject_Z (Spec.sumMinutes filtered) / 60)%Q) in *.
  unfold Payroll.parseFloat in *.
  set (H := (Payroll.totalHours filtered # 100)%Q) in *.
  set (P := (pay # 100)%Q) in *.
  assert (He : (P - x * hourlyRate == (P - H * hourlyRate) + (H - x) * hourlyRate)%Q)
    by ring.
  rewrite He.
  eapply Qle_trans; [apply Qabs_triangle|].
  apply Qplus_le_compat; [exact Hp|].
  rewrite Qabs_Qmult.
  apply Qmult_le_compat_r; [exact Hh | apply Qabs_nonneg].
Qed.

(** X18: when no session of the period carries a duration, in particular
    when the period is empty, the reported hours and the reported pay are
    "0.00" at every hourly rate. *)
Theorem no_durations_no_pay (filtered : list TimeSession) (hourlyRate : Q) :
  (∀ s, In s filtered → durationInMinutes s = None) →
  Payroll.show_fixed2 (Payroll.totalHours filtered) = "0.00"%string
  ∧ Payroll.show_fixed2 (Payroll.totalPay (Payroll.totalHours filtered) hourlyRate)
    = "0.00"%string.
Proof.
  intros Hnone.
  assert (Hs : Spec.sumMinutes filtered = 0).
  { unfold Spec.sumMinutes. induction filtered as [|s l IH]; [reflexivity|].
    simpl. rewrite (Hnone s (or_introl eq_refl)). simpl.
    apply IH. intros s' Hin. apply Hnone. right. exact Hin. }
  assert (Hh : Payroll.totalHours filtered = 0).
  { rewrite totalHours_sum, Hs. vm_compute. reflexivity. }
  rewrite Hh. split; [vm_compute; reflexivity|].
  unfold Payroll.totalPay.
  rewrite (toFixed2_comp (Payroll.parseFloat 0 * hourlyRate) 0)
    by (unfold Payroll.parseFloat; ring).
  vm_compute. reflexivity.
Qed.

Lemma no_durations_no_pay_witness :
  Payroll.show_fixed2 (Payroll.totalHours [newSession "id" 0 (Loc.mk 40 (-73))])
  = "0.00"%string
  ∧ Payroll.show_fixed2
      (Payroll.totalPay (Payroll.totalHours [newSession "id" 0 (Loc.mk 40 (-73))]) 25)
    = "0.00"%string.
Proof.
  apply (no_durations_no_pay [newSession "id" 0 (Loc.mk 40 (-73))] 25).
  intros s [<-|[]]. reflexivity.
Defined.

(** 100 minutes at 25 an hour: the hours are reported as 1.67 and the pay as
    41.75, where 100/60 x 25 is 41.67 to 2 decimal places. *)
Example pay_from_rounded_hours (s : TimeSession) :
  Payroll.totalHours [withDuration s 100] = 167
  ∧ Payroll.totalPay (Payroll.totalHours [withDuration s 100]) 25 = 4175
  ∧ Payroll.toFixed2 (inject_Z 100 / 60 * 25) = 4167.
Proof. repeat split; vm_compute; reflexivity. Qed.

(** ** Chart data *)

Section Chart.
Variable weekdayShort : Z → string.


Lemma addHours_keys_old (day : string) (h : Q) (days : list (string * Q)) :
  In day (map fst days) →
  map fst (Report.addHours day h days) = map fst days.
Proof.
  induction days as [|[name h0] rest IH]; simpl; [tauto|].
  intros Hin. destruct (String.eqb name day) eqn:He; simpl; [reflexivity|].
  f_equal. apply IH. destruct Hin as [Hin|Hin]; [|exact Hin].
  apply String.eqb_neq in He. contradiction.
Qed.

Lemma addHours_keys_new (day : string) (h : Q) (days : list (string * Q)) :
  ¬ In day (map fst days) →
  map fst (Report.addHours day h days) = map fst days ++ [day].
Proof.
  induction days as [|[name h0] rest IH]; simpl; [reflexivity|].
  intros Hnin. destruct (String.eqb name day) eqn:He; simpl.
  - apply String.eqb_eq in He. tauto.
  - f_equal. apply IH. tauto.
Qed.

Lemma addHours_keys_cases (day : string) (h : Q) (days : list (string * Q)) :
  (In day (map fst days) ∧ map fst (Report.addHours day h days) = map fst days)
  ∨ (¬ In day (map fst days)
     ∧ map fst (Report.addHours day h days) = map fst days ++ [day]).
Proof.
  destruct (in_dec String.string_dec day (map fst days)) as [Hin|Hnin].
  - left. split; [exact Hin | apply addHours_keys_old, Hin].
  - right. split; [exact Hnin | apply addHours_keys_new, Hnin].
Qed.

Lemma addHours_NoDup (day : string) (h : Q) (days : list (string * Q)) :
  List.NoDup (map fst days) → List.NoDup (map fst (Report.addHours day h days)).
Proof.
  intros Hnd. destruct (addHours_keys_cases day h days) as [[_ ->]|[Hnin ->]].
  - exact Hnd.
  - apply NoDup_app_remove_l with (l := []). simpl.
    apply Permutation_NoDup with (l := day :: map fst days).
    + apply Permutation_cons_append.
    + constructor; assumption.
Qed.

Lemma addHours_In_key (day name : string) (h : Q) (days : list (string * Q)) :
  In name (map fst (Report.addHours day h days)) ↔ name = day ∨ In name (map fst days).
Proof.
  destruct (addHours_keys_cases day h days) as [[Hin ->]|[Hnin ->]].
  - split; [tauto|]. intros [->|H]; assumption.
  - rewrite in_app_iff. simpl. split; intros H; intuition congruence.
Qed.

Lemma fold_keys (l : list TimeSession) (acc : list (string * Q)) :
  List.NoDup (map fst acc) →
  List.NoDup (map fst (fold_left (Report.addSession weekdayShort) l acc))
  ∧ ∀ name, In name (map fst (fold_left (Report.addSession weekdayShort) l acc))
            ↔ In name (map fst acc)
              ∨ ∃ s, In s l ∧ weekdayShort (startTime s) = name.
Proof.
  revert acc. induction l as [|s l IH]; intros acc Hnd; simpl.
  - split; [exact Hnd|]. intros name. split; [tauto|].
    intros [H|(s & [] & _)]. exact H.
  - destruct (IH ((Report.addSession weekdayShort) acc s) (addHours_NoDup _ _ _ Hnd)) as [Hnd' Hkeys].
    split; [exact Hnd'|]. intros name. rewrite Hkeys. unfold Report.addSession at 1.
    rewrite addHours_In_key. split.
    + intros [[->|H]|(s' & Hin & Hs')]; eauto.
    + intros [H|(s' & [<-|Hin] & Hs')]; eauto.
Qed.

Lemma addHours_total (day : string) (h : Q) (days : list (string * Q)) :
  (Report.totalOf (Report.addHours day h days) == Report.totalOf days + h)%Q.
Proof.
  induction days as [|[name h0] rest IH]; simpl.
  - ring.
  - destruct (String.eqb name day); simpl.
    + ring.
    + rewrite IH. ring.
Qed.

Lemma fold_total (l : list TimeSession) (acc : list (string * Q)) :
  (Report.totalOf (fold_left (Report.addSession weekdayShort) l acc)
   == Report.totalOf acc + inject_Z (Spec.sumMinutes l) / 60)%Q.
Proof.
  revert acc. induction l as [|s l IH]; intros acc; simpl.
  - unfold Spec.sumMinutes. simpl. field.
  - rewrite IH. unfold Report.addSession at 1. rewrite addHours_total.
    unfold Report.hoursOf, Spec.sumMinutes. simpl. fold (Spec.sumMinutes l).
    replace (default 0 (durationInMinutes s)) with (Payroll.durationOrZero s)
      by (unfold Payroll.durationOrZero; destruct (durationInMinutes s); reflexivity).
    rewrite inject_Z_plus. field.
Qed.

Lemma addHours_In (day : string) (h : Q) (days : list (string * Q))
    (name : string) (h' : Q) :
  List.NoDup (map fst days) →
  In (name, h') (Report.addHours day h days) →
  (name ≠ day ∧ In (name, h') days)
  ∨ (name = day
     ∧ ((∃ h0, In (day, h0) days ∧ h' = (h0 + h)%Q)
        ∨ (¬ In day (map fst days) ∧ h' = (0 + h)%Q))).
Proof.
  induction days as [|[k h0] rest IH]; simpl; intros Hnd Hin.
  - destruct Hin as [[= <- <-]|[]]. right. split; [reflexivity|]. right. tauto.
  - inversion Hnd as [|? ? Hk Hnd']; subst.
    destruct (String.eqb k day) eqn:He.
    + apply String.eqb_eq in He. subst k. destruct Hin as [[= <- <-]|Hin].
      * right. split; [reflexivity|]. left. exists h0. auto.
      * left. split; [|right; exact Hin].
        intros ->. apply Hk. apply (in_map fst) in Hin. exact Hin.
    + apply String.eqb_neq in He. destruct Hin as [[= <- <-]|Hin].
      * left. split; [exact He | left; reflexivity].
      * destruct (IH Hnd' Hin) as [[Hne Hold]|[-> [(h1 & Hh1 & ->)|[Hnin ->]]]].
        -- left. split; [exact Hne | right; exact Hold].
        -- right. split; [reflexivity|]. left. exists h1. auto.
        -- right. split; [reflexivity|]. right. split; [|reflexivity].
           intros [Hk'|Hin']; [contradiction | contradiction].
Qed.

Lemma hoursOn_cons (name : string) (s : TimeSession) (l : list TimeSession) :
  Report.hoursOn weekdayShort name (s :: l)
  = if String.eqb (weekdayShort (startTime s)) name
    then (Report.hoursOf s + Report.hoursOn weekdayShort name l)%Q
    else Report.hoursOn weekdayShort name l.
Proof. reflexivity. Qed.

Lemma fold_bucket (l : list TimeSession) (acc : list (string * Q)) (name : string) (h : Q) :
  List.NoDup (map fst acc) →
  In (name, h) (fold_left (Report.addSession weekdayShort) l acc) →
  (∃ h0, In (name, h0) acc ∧ (h == h0 + Report.hoursOn weekdayShort name l)%Q)
  ∨ (¬ In name (map fst acc) ∧ (h == Report.hoursOn weekdayShort name l)%Q).
Proof.
  revert acc. induction l as [|s l IH]; intros acc Hnd Hin.
  - simpl in Hin. left. exists h. split; [exact Hin|]. simpl. ring.
  - simpl in Hin. rewrite hoursOn_cons.
    destruct (IH ((Report.addSession weekdayShort) acc s) (addHours_NoDup _ _ _ Hnd) Hin)
      as [(h1 & Hh1 & Heq)|[Hnin Heq]].
    + unfold Report.addSession in Hh1.
      destruct (addHours_In _ _ _ _ _ Hnd Hh1)
        as [[Hne Hold]|[-> [(h0 & Hh0 & ->)|[Hnew ->]]]].
      * left. exists h1. split; [exact Hold|].
        apply not_eq_sym, String.eqb_neq in Hne. rewrite Hne. exact Heq.
      * left. exists h0. split; [exact Hh0|].
        rewrite String.eqb_refl. rewrite Heq. ring.
      * right. split; [exact Hnew|].
        rewrite String.eqb_refl. rewrite Heq. ring.
    + unfold Report.addSession in Hnin. rewrite addHours_In_key in Hnin.
      right. split; [tauto|].
      assert (Hne : weekdayShort (startTime s) ≠ name) by (intros He; apply Hnin; auto).
      apply String.eqb_neq in Hne. rewrite Hne. exact Heq.
Qed.

(** X19: the chart has one entry per weekday name, and its names are
    exactly the weekday names of the sessions it is built from: no empty
    bucket, no fixed seven-day axis. *)
Theorem chart_one_entry_per_weekday (filtered : list TimeSession) :
  List.NoDup (map fst (Report.chartData weekdayShort filtered))
  ∧ ∀ name, In name (map fst (Report.chartData weekdayShort filtered))
            ↔ ∃ s, In s filtered ∧ weekdayShort (startTime s) = name.
Proof.
  destruct (fold_keys filtered [] (List.NoDup_nil _)) as [Hnd Hkeys].
  split; [exact Hnd|]. intros name.
  unfold Report.chartData. rewrite Hkeys. simpl. tauto.
Qed.

(** X20: the hours of each chart entry are the hours of the sessions of that
    weekday name, a missing duration counted as 0, and the entries together
    add up to the total minutes of the sessions divided by 60. *)
Theorem chart_hours_per_weekday (filtered : list TimeSession) :
  (∀ name h, In (name, h) (Report.chartData weekdayShort filtered) →
             (h == Report.hoursOn weekdayShort name filtered)%Q)
  ∧ (Report.totalOf (Report.chartData weekdayShort filtered)
     == inject_Z (Spec.sumMinutes filtered) / 60)%Q.
Proof.
  split.
  - intros name h Hin.
    destruct (fold_bucket filtered [] name h (List.NoDup_nil _) Hin)
      as [(h0 & [] & _)|[_ Heq]].
    exact Heq.
  - pose proof (fold_total filtered []) as Ht. simpl in Ht.
    unfold Report.chartData. rewrite Ht. ring.
Qed.
End Chart.

(** ** CSV export *)

(** X21: in [src/App.tsx], started on an empty storage, every row exported
    for a period is a finished, verified shift: its third cell is the
    formatted end time, never "In Progress", its fourth the hours computed
    from the two instants, and its last cell is "Verified", never
    "Flagged". *)
Theorem export_rows_verified (D : Geofence.Doubles)
    (toLocaleDateString toLocaleTimeString : Z → string) (w : App.World) (LocalTZA now periodOffset : Z) (s : TimeSession) :
  App.reachable D ∅ w →
  In s (Payroll.filteredSessions LocalTZA now periodOffset (App.sessions (App.state w))) →
  ∃ e, endTime s = Some e
       ∧ Report.exportRow toLocaleDateString toLocaleTimeString s
         = [ toLocaleDateString (startTime s);
             toLocaleTimeString (startTime s);
             toLocaleTimeString e;
             Payroll.show_fixed2
               (Payroll.toFixed2 (inject_Z (durationMins e (startTime s)) / 60));
             "Verified"%string ].
Proof.
  intros Hr Hin.
  destruct (app_well_recorded D w Hr) as [Hall _].
  unfold Payroll.filteredSessions in Hin. apply filter_In in Hin as [Hin _].
  rewrite List.Forall_forall in Hall.
  destruct (Hall s Hin) as (_ & Hoob & e & He & Hd).
  exists e. split; [exact He|].
  unfold Report.exportRow, Report.hoursOf, Payroll.durationOrZero.
  rewrite He, Hd, Hoob. reflexivity.
Qed.

Lemma export_rows_verified_witness :
  let w := App.clockOut
             (App.clockIn Geofence.Exact (App.mount ∅) 1710504000000 (Some (Loc.mk 40 (-73))) "id")
             1710511200000 in
  let s := complete (newSession "id" 1710504000000 (Loc.mk 40 (-73))) 1710511200000 in
  ∃ e, endTime s = Some e
       ∧ Report.exportRow (λ _, "date"%string) (λ _, "time"%string) s
         = [ "date"%string; "time"%string; "time"%string;
             Payroll.show_fixed2
               (Payroll.toFixed2 (inject_Z (durationMins e (startTime s)) / 60));
             "Verified"%string ].
Proof.
  intros w s.
  apply (export_rows_verified Geofence.Exact (λ _, "date"%string) (λ _, "time"%string)
           w 0 1710936000000 0 s).
  - apply App.reach_clockOut, App.reach_clockIn, App.reach_mount.
  - assert (Hw : App.sessions (App.state w) = [s]).
    { subst w s. unfold App.clockOut.
      rewrite (clock_in_accepted Geofence.Exact (App.mount ∅) 1710504000000 (Loc.mk 40 (-73)) "id")
        by (apply clock_in_latitude_zero_no_error; reflexivity).
      reflexivity. }
    rewrite Hw. vm_compute. left. reflexivity.
Defined.
